(** * Shallow embedding of the two Keras training scripts

    - [02-keras-2L-diabetes-predict/keras-predictor.py] (module body)
    - [_homeworks_/homework_04/cardiotocographic-classification.py] ([main] and
      its helper functions)

    Both scripts are straight-line Python over pandas, scikit-learn, Keras,
    matplotlib and pickle.  The scripts are modelled statement by statement in
    a state-and-exception monad: the state is the trace of library calls the
    script makes (reads, the split, scaling, encoding, model building, fit,
    evaluate, predict, writes and prints) together with the state of numpy's
    global random generator; an exception raised by a library call aborts the
    rest of the script (there is no [try] in either file).

    The parts of the libraries whose internals decide nothing the scripts do
    (file contents, the permutation drawn by numpy, the weights learnt by
    [fit], the value of each output neuron, the loss, float16 rounding, the
    success of a file write) are the fields of a record [Lib]; the parts the
    scripts' behaviour depends on (DataFrame slicing, [train_test_split]'s
    index arithmetic, [MinMaxScaler], [OneHotEncoder], [np.argmax], the
    shape checks and metrics of [evaluate]/[predict]) are written out.
    Numbers are canonical rationals [Qc] (so equal numbers are equal terms). *)

From Stdlib Require Import String Ascii QArith Qcanon Qround Lia Bool.
From Stdlib Require Import List Permutation Sorting.Sorted.
Import ListNotations.
Open Scope string_scope.
Open Scope list_scope.
Open Scope nat_scope.

(** ** Numbers *)

Definition qz (z : Z) : Qc := Q2Qc (inject_Z z).
Definition q0 : Qc := qz 0.
Definition q1 : Qc := qz 1.

Definition Qc_eqb (x y : Qc) : bool := Qeq_bool (this x) (this y).
Definition Qc_ltb (x y : Qc) : bool := negb (Qle_bool (this y) (this x)).

Definition qc_min (x y : Qc) : Qc := if Qc_ltb y x then y else x.
Definition qc_max (x y : Qc) : Qc := if Qc_ltb x y then y else x.

Definition qc_sum (r : list Qc) : Qc := fold_right Qcplus q0 r.

(** ** Python values, exceptions and results *)

Inductive Exn : Type :=
| FileNotFoundError (path : string)
| ParserError (msg : string)
| ValueError (msg : string)
| KeyError (key : string)
| IndexError (msg : string)
| OSError (msg : string).

Inductive Result (A : Type) : Type :=
| Ok (a : A)
| Err (e : Exn).
Arguments Ok {A} a.
Arguments Err {A} e.

(** Arguments of [print]. *)
Inductive PyVal : Type :=
| PStr (s : string)
| PNum (q : Qc).

Definition newline : string := String (ascii_of_nat 10) EmptyString.

(** [lst[i]] on a Python list. *)
Definition py_index {A} (l : list A) (i : nat) : Result A :=
  match nth_error l i with
  | Some a => Ok a
  | None => Err (IndexError "list index out of range")
  end.

(** ** pandas *)

Definition Row := list Qc.
Definition Matrix := list Row.

(** A DataFrame: column labels and rows tagged with their index label. *)
Record DataFrame := mkDF { df_columns : list string; df_rows : list (nat * Row) }.

(** A frame as [read_excel] returns it, before [dropna]: [None] is NaN. *)
Record RawFrame := mkRaw { raw_columns : list string; raw_rows : list (nat * list (option Qc)) }.

(** A Series: values tagged with their index label. *)
Definition Series := list (nat * Qc).

(** [df.iloc[:, :-1]] *)
Definition iloc_drop_last (df : DataFrame) : DataFrame :=
  mkDF (removelast (df_columns df))
       (map (fun ir => (fst ir, removelast (snd ir))) (df_rows df)).

(** [df.iloc[:, -1]]: out of bounds on a frame without columns. *)
Definition iloc_last (df : DataFrame) : Result Series :=
  match df_columns df with
  | [] => Err (IndexError "single positional indexer is out-of-bounds")
  | _ => Ok (map (fun ir => (fst ir, last (snd ir) q0)) (df_rows df))
  end.

(** [df.to_numpy()] *)
Definition to_numpy (df : DataFrame) : Matrix := map snd (df_rows df).

(** [np.array(s)] of a Series. *)
Definition series_values (s : Series) : list Qc := map snd s.

(** [df.shape[1]] *)
Definition df_shape1 (df : DataFrame) : nat := length (df_columns df).

Fixpoint all_some (l : list (option Qc)) : option Row :=
  match l with
  | [] => Some []
  | None :: _ => None
  | Some x :: l' => match all_some l' with Some r => Some (x :: r) | None => None end
  end.

(** [df.dropna()]: drop every row holding a NaN. *)
Definition dropna (raw : RawFrame) : DataFrame :=
  mkDF (raw_columns raw)
       (flat_map (fun ir => match all_some (snd ir) with
                            | Some r => [(fst ir, r)]
                            | None => []
                            end) (raw_rows raw)).

Fixpoint index_of (s : string) (l : list string) : option nat :=
  match l with
  | [] => None
  | c :: l' => if String.eqb c s then Some 0
               else match index_of s l' with Some i => Some (S i) | None => None end
  end.

Fixpoint column_positions (cols names : list string) : Result (list nat) :=
  match names with
  | [] => Ok []
  | nm :: names' =>
      match index_of nm cols with
      | None => Err (KeyError nm)
      | Some j => match column_positions cols names' with
                  | Ok js => Ok (j :: js)
                  | Err e => Err e
                  end
      end
  end.

(** [df.loc[:, names]] *)
Definition loc_cols (df : DataFrame) (names : list string) : Result DataFrame :=
  match column_positions (df_columns df) names with
  | Err e => Err e
  | Ok js => Ok (mkDF names (map (fun ir => (fst ir, map (fun j => nth j (snd ir) q0) js))
                                 (df_rows df)))
  end.

(** [df.iloc[positions]] (scikit-learn's [_safe_indexing] on a DataFrame). *)
Definition take_rows (df : DataFrame) (pos : list nat) : DataFrame :=
  mkDF (df_columns df) (map (fun i => nth i (df_rows df) (0, [])) pos).

(** ** scikit-learn preprocessing *)

(** [np.unique]: the distinct values, sorted increasingly. *)
Fixpoint insert_unique (v : Qc) (l : list Qc) : list Qc :=
  match l with
  | [] => [v]
  | c :: l' => match Qccompare v c with
               | Lt => v :: l
               | Eq => l
               | Gt => c :: insert_unique v l'
               end
  end.

Definition np_unique (l : list Qc) : list Qc := fold_right insert_unique [] l.

(** [OneHotEncoder(sparse_output=False, dtype='uint8')] once fitted: its
    [categories_] for the single input column. *)
Record OneHotEncoder := mkOHE { categories : list Qc }.

(** The encoded row of a value: a 1 in the column of its category. *)
Definition onehot_row (cats : list Qc) (v : Qc) : Row :=
  map (fun c => if Qc_eqb c v then q1 else q0) cats.

(** [encoder.fit_transform(np.array(y).reshape(-1, 1))] *)
Definition ohe_fit_transform (y : list Qc) : Result (OneHotEncoder * Matrix) :=
  match y with
  | [] => Err (ValueError "Found array with 0 sample(s) while a minimum of 1 is required.")
  | _ => let cats := np_unique y in Ok (mkOHE cats, map (onehot_row cats) y)
  end.

(** [MinMaxScaler()] once fitted: [data_min_] and [data_max_]. *)
Record MinMaxScaler := mkMMS { data_min : Row; data_max : Row }.

Definition col_fold (f : Qc -> Qc -> Qc) (j : nat) (X : Matrix) : Qc :=
  match X with
  | [] => q0
  | r0 :: rs => fold_left (fun acc r => f acc (nth j r q0)) rs (nth j r0 q0)
  end.

Definition n_features (X : Matrix) : nat :=
  match X with [] => 0 | r0 :: _ => length r0 end.

(** [scaler.fit(X)] *)
Definition mms_fit (X : Matrix) : Result MinMaxScaler :=
  match X with
  | [] => Err (ValueError "Found array with 0 sample(s) while a minimum of 1 is required by MinMaxScaler.")
  | r0 :: _ =>
      let d := length r0 in
      if Nat.eqb d 0 then Err (ValueError "Found array with 0 feature(s) while a minimum of 1 is required by MinMaxScaler.")
      else if negb (forallb (fun r => Nat.eqb (length r) d) X)
      then Err (ValueError "setting an array element with a sequence.")
      else Ok (mkMMS (map (fun j => col_fold qc_min j X) (seq 0 d))
                     (map (fun j => col_fold qc_max j X) (seq 0 d)))
  end.

(** [X * scale_ + min_], where [scale_] is [1 / data_range] (a zero range
    replaced by 1) and [min_] is [0 - data_min * scale_].  The arithmetic is
    exact: the rounding of float64 is not modelled. *)
Definition mms_scale_cell (mn mx x : Qc) : Qc :=
  let range := Qcminus mx mn in
  let scale := Qcinv (if Qc_eqb range q0 then q1 else range) in
  let min := Qcminus q0 (Qcmult mn scale) in
  Qcplus (Qcmult x scale) min.

Definition mms_scale_row (sc : MinMaxScaler) (r : Row) : Row :=
  map (fun xm => mms_scale_cell (fst (snd xm)) (snd (snd xm)) (fst xm))
      (combine r (combine (data_min sc) (data_max sc))).

(** [scaler.transform(X)] *)
Definition mms_transform (sc : MinMaxScaler) (X : Matrix) : Result Matrix :=
  match X with
  | [] => Err (ValueError "Found array with 0 sample(s) while a minimum of 1 is required by MinMaxScaler.")
  | _ => if forallb (fun r => Nat.eqb (length r) (length (data_min sc))) X
         then Ok (map (mms_scale_row sc) X)
         else Err (ValueError "X has a different number of features than MinMaxScaler is expecting.")
  end.

(** ** numpy *)

Fixpoint argmax_from (r : Row) (i best : nat) (bv : Qc) : nat :=
  match r with
  | [] => best
  | x :: r' => if Qc_ltb bv x then argmax_from r' (S i) i x else argmax_from r' (S i) best bv
  end.

(** [np.argmax(r)]: the first position of the largest entry. *)
Definition np_argmax (r : Row) : Result nat :=
  match r with
  | [] => Err (ValueError "attempt to get argmax of an empty sequence")
  | x :: r' => Ok (argmax_from r' 1 0 x)
  end.

(** [np.argmax(X, axis=1)] *)
Fixpoint np_argmax_rows (X : Matrix) : Result (list nat) :=
  match X with
  | [] => Ok []
  | r :: X' => match np_argmax r, np_argmax_rows X' with
               | Ok i, Ok is => Ok (i :: is)
               | Err e, _ => Err e
               | _, Err e => Err e
               end
  end.

(** ** Keras *)

(** [Dense(units, activation=..., input_dim=..., name=...)] *)
Record Dense := mkDense { units : nat; activation : string; input_dim : option nat; lname : string }.

(** The arguments of [model.compile]. *)
Record Compiled := mkCompiled { loss_name : string; optimizer : string; metrics : list string }.

Record Model := mkModel { m_name : option string; m_layers : list Dense; m_compiled : option Compiled }.

(** The arguments of [model.fit] besides the data. *)
Record FitOpts := mkFitOpts { epochs : nat; batch_size : nat; validation_split : Q }.

(** Learnt parameters, and [hist.history] (metric name to per-epoch values). *)
Definition Weights := list Qc.
Definition History := list (string * list Qc).

Definition out_units (m : Model) : nat :=
  match rev (m_layers m) with [] => 0 | l :: _ => units l end.

Definition in_dim (m : Model) : option nat :=
  match m_layers m with [] => None | l :: _ => input_dim l end.

Definition inputs_fit (m : Model) (X : Matrix) : bool :=
  match in_dim m with
  | Some d => forallb (fun r => Nat.eqb (length r) d) X
  | None => true
  end.

(** ** Trace events *)

Inductive Event : Type :=
| EvReadCsv (path : string)
| EvReadExcel (path sheet usecols : string)
| EvSplit (n : nat) (train test : list nat)
| EvScalerFit (X : Matrix)
| EvScalerTransform (X : Matrix)
| EvEncoderFitTransform (y : list Qc)
| EvSequential (name : option string)
| EvAdd (l : Dense)
| EvSummary (m : Model)
| EvCompile (c : Compiled)
| EvFit (m : Model) (X Y : Matrix)
| EvEvaluate (m : Model) (X Y : Matrix)
| EvPredict (m : Model) (X : Matrix)
| EvSaveModel (path : string)
| EvSaveFig (path : string)
| EvShow
| EvPrint (args : list PyVal)
| EvPickle (path : string) (sc : MinMaxScaler).

(** ** The libraries' free parameters *)

Record Lib := mkLib {
  (** [pd.read_csv(path)] *)
  read_csv : string -> Result DataFrame;
  (** [pd.read_excel(path, sheet_name=..., usecols=...)] *)
  read_excel : string -> string -> string -> Result RawFrame;
  (** [np.random.permutation(n)] on the global generator: the draw and the
      generator's next state *)
  permutation : nat -> nat -> list nat * nat;
  (** the training run of [model.fit]: learnt weights and history *)
  keras_train : Model -> Matrix -> Matrix -> FitOpts -> Result (Weights * History);
  (** the value of output neuron [j] of the trained network on an input row *)
  neuron : Weights -> Row -> nat -> Qc;
  (** the loss [evaluate] reports *)
  loss_value : Model -> Weights -> Matrix -> Matrix -> Qc;
  (** [.astype('float16')] on one entry *)
  to_float16 : Qc -> Qc;
  (** opening the file at [path] for writing and writing it *)
  write_file : string -> Result unit
}.

(** ** The state and exception monad *)

Record St := mkSt { st_trace : list Event; st_rng : nat }.

Definition M (A : Type) : Type := St -> Result A * St.

Definition ret {A} (a : A) : M A := fun s => (Ok a, s).

Definition bind {A B} (m : M A) (k : A -> M B) : M B :=
  fun s => match m s with
           | (Ok a, s') => k a s'
           | (Err e, s') => (Err e, s')
           end.

Notation "x <- m ;; k" := (bind m (fun x => k))
  (at level 61, m at next level, right associativity).
Notation "m ;;; k" := (bind m (fun _ : unit => k))
  (at level 61, right associativity).

Definition lift {A} (r : Result A) : M A := fun s => (r, s).

Definition emit (ev : Event) : M unit :=
  fun s => (Ok tt, mkSt (st_trace s ++ [ev]) (st_rng s)).

(** A library call: logged, then its outcome. *)
Definition call {A} (ev : Event) (r : Result A) : M A := emit ev ;;; lift r.

Definition print (args : list PyVal) : M unit := emit (EvPrint args).

(** [for x in xs: body(x)] *)
Fixpoint for_each {A} (xs : list A) (body : A -> M unit) : M unit :=
  match xs with
  | [] => ret tt
  | x :: xs' => body x ;;; for_each xs' body
  end.

(** ** Library calls in the monad *)

Section LibraryCalls.

Variable L : Lib.

Definition pd_read_csv (path : string) : M DataFrame :=
  call (EvReadCsv path) (read_csv L path).

Definition pd_read_excel (path sheet usecols : string) : M RawFrame :=
  call (EvReadExcel path sheet usecols) (read_excel L path sheet usecols).

(** scikit-learn's [_validate_shuffle_split] with [train_size=None]. *)
Definition n_test_of (test_size : Q) (n : nat) : nat :=
  Z.to_nat (Qceiling (test_size * inject_Z (Z.of_nat n))).

(** [train_test_split(df, test_size=...)] without [random_state]: a
    [ShuffleSplit] drawing its permutation from numpy's global generator. *)
Definition train_test_split (df : DataFrame) (test_size : Q) : M (DataFrame * DataFrame) :=
  fun s =>
    let n := length (df_rows df) in
    let n_test := n_test_of test_size n in
    let n_train := n - n_test in
    if Nat.eqb n_train 0
    then (Err (ValueError "the resulting train set will be empty"), s)
    else let (perm, rng') := permutation L n (st_rng s) in
         let test := firstn n_test perm in
         let train := firstn n_train (skipn n_test perm) in
         (Ok (take_rows df train, take_rows df test),
          mkSt (st_trace s ++ [EvSplit n train test]) rng').

(** [scaler.fit_transform(X)] *)
Definition scaler_fit_transform (X : Matrix) : M (MinMaxScaler * Matrix) :=
  sc <- call (EvScalerFit X) (mms_fit X) ;;
  Xt <- call (EvScalerTransform X) (mms_transform sc X) ;;
  ret (sc, Xt).

(** [scaler.transform(X)] *)
Definition scaler_transform (sc : MinMaxScaler) (X : Matrix) : M Matrix :=
  call (EvScalerTransform X) (mms_transform sc X).

(** [encoder.fit_transform(...)] *)
Definition encoder_fit_transform (y : list Qc) : M (OneHotEncoder * Matrix) :=
  call (EvEncoderFitTransform y) (ohe_fit_transform y).

(** [X.astype(dtype='float16')] *)
Definition astype_float16 (X : Matrix) : Matrix := map (map (to_float16 L)) X.

Definition Sequential (name : option string) : M Model :=
  emit (EvSequential name) ;;; ret (mkModel name [] None).

Definition model_add (m : Model) (l : Dense) : M Model :=
  emit (EvAdd l) ;;; ret (mkModel (m_name m) (m_layers m ++ [l]) (m_compiled m)).

Definition model_summary (m : Model) : M unit := emit (EvSummary m).

Definition model_compile (m : Model) (c : Compiled) : M Model :=
  emit (EvCompile c) ;;; ret (mkModel (m_name m) (m_layers m) (Some c)).

Definition targets_fit (m : Model) (Y : Matrix) : bool :=
  forallb (fun y => Nat.eqb (length y) (out_units m)) Y.

(** [model.fit(X, Y, ...)] *)
Definition model_fit (m : Model) (X Y : Matrix) (opts : FitOpts) : M (Weights * History) :=
  call (EvFit m X Y)
       (if inputs_fit m X && targets_fit m Y then keras_train L m X Y opts
        else Err (ValueError "Input is incompatible with the layer")).

(** The network's output on one row: one entry per unit of the last layer. *)
Definition forward (m : Model) (w : Weights) (x : Row) : Row :=
  map (neuron L w x) (seq 0 (out_units m)).

Definition keras_predict (m : Model) (w : Weights) (X : Matrix) : Result Matrix :=
  if inputs_fit m X then Ok (map (forward m w) X)
  else Err (ValueError "Input is incompatible with the layer").

(** [model.predict(X)] *)
Definition model_predict (m : Model) (w : Weights) (X : Matrix) : M Matrix :=
  call (EvPredict m X) (keras_predict m w X).

End LibraryCalls.

(** Keras metrics on one sample, as a fraction. *)
Definition half : Qc := Q2Qc (1 # 2).

Definition binary_score (p y : Row) : Q :=
  let hits := filter (fun py => Qc_eqb (snd py) (if Qc_ltb half (fst py) then q1 else q0))
                     (combine p y) in
  inject_Z (Z.of_nat (length hits)) / inject_Z (Z.of_nat (length y)).

Definition categorical_score (p y : Row) : Q :=
  match np_argmax y, np_argmax p with
  | Ok a, Ok b => if Nat.eqb a b then 1%Q else 0%Q
  | _, _ => 0%Q
  end.

Definition metric_score (name : string) (p y : Row) : Q :=
  if String.eqb name "binary_accuracy" then binary_score p y
  else if String.eqb name "categorical_accuracy" then categorical_score p y
  else 0%Q.

Definition q_sum (l : list Q) : Q := fold_right Qplus 0%Q l.

(** A metric over a batch: the mean of the per-sample scores. *)
Definition metric_value (name : string) (P Y : Matrix) : Qc :=
  Q2Qc (q_sum (map (fun py => metric_score name (fst py) (snd py)) (combine P Y))
        / inject_Z (Z.of_nat (length Y))).

Definition keras_evaluate (L : Lib) (m : Model) (w : Weights) (X Y : Matrix) : Result (list Qc) :=
  match m_compiled m with
  | None => Err (ValueError "You must call `compile()` before using the model.")
  | Some c =>
      if Nat.eqb (length X) 0 then Err (ValueError "Unexpected result of `evaluate`: no data")
      else if negb (inputs_fit m X) then Err (ValueError "Input is incompatible with the layer")
      else if negb (Nat.eqb (length X) (length Y)) then Err (ValueError "Data cardinality is ambiguous")
      else if negb (targets_fit m Y) then Err (ValueError "Arguments `target` and `output` must have the same shape")
      else let P := map (forward L m w) X in
           Ok (loss_value L m w X Y :: map (fun nm => metric_value nm P Y) (metrics c))
  end.

(** [model.evaluate(X, Y, verbose=0)]: the loss followed by the metrics. *)
Definition model_evaluate (L : Lib) (m : Model) (w : Weights) (X Y : Matrix) : M (list Qc) :=
  call (EvEvaluate m X Y) (keras_evaluate L m w X Y).

(** Writes are logged once the file has been written. *)
Definition model_save (L : Lib) (path : string) : M unit :=
  lift (write_file L path) ;;; emit (EvSaveModel path).

Definition plt_savefig (L : Lib) (path : string) : M unit :=
  lift (write_file L path) ;;; emit (EvSaveFig path).

(** [with open(path, 'wb') as f: pickle.dump(sc, f)] *)
Definition pickle_dump (L : Lib) (path : string) (sc : MinMaxScaler) : M unit :=
  lift (write_file L path) ;;; emit (EvPickle path sc).

(** ** The process environment *)

Record Env := mkEnv { cwd : string; argv : list string }.

Definition is_absolute (p : string) : bool :=
  match p with String c _ => Ascii.eqb c "/"%char | EmptyString => false end.

Definition ends_with_slash (p : string) : bool :=
  match String.get (String.length p - 1) p with
  | Some c => Ascii.eqb c "/"%char
  | None => false
  end.

(** [os.path.join(a, b)] *)
Definition path_join (a b : string) : string :=
  if is_absolute b then b
  else if String.eqb a "" || ends_with_slash a then a ++ b else a ++ "/" ++ b.

(** ** [02-keras-2L-diabetes-predict/keras-predictor.py] *)

Module Diabetes.

Definition DIVIDE_RATIO : Q := 8 # 10.

(** The target Series as the column Keras receives. *)
Definition series_col (y : Series) : Matrix := map (fun v => [v]) (series_values y).

Definition script (L : Lib) (env : Env) : M unit :=
  let cwd := cwd env in
  diabetes_data <- pd_read_csv L (path_join cwd "02-keras-2L-diabetes-predict/diabetes.csv") ;;
  split <- train_test_split L diabetes_data (1 - DIVIDE_RATIO) ;;
  let (train_dataset, test_set) := split in
  let X_train := iloc_drop_last train_dataset in
  y_train <- lift (iloc_last train_dataset) ;;
  let X_test := iloc_drop_last test_set in
  y_test <- lift (iloc_last test_set) ;;
  model <- Sequential (Some "Pima-Indians-Diabetes-X_test") ;;
  model <- model_add model (mkDense 64 "relu" (Some (df_shape1 X_train)) "hidden-1") ;;
  model <- model_add model (mkDense 64 "relu" None "hidden-2") ;;
  model <- model_add model (mkDense 1 "sigmoid" None "output") ;;
  model_summary model ;;;
  model <- model_compile model (mkCompiled "binary_crossentropy" "adam" ["binary_accuracy"]) ;;
  fitted <- model_fit L model (to_numpy X_train) (series_col y_train) (mkFitOpts 100 32 (2 # 10)) ;;
  let w := fst fitted in
  score <- model_evaluate L model w (to_numpy X_test) (series_col y_test) ;;
  acc <- lift (py_index score 1) ;;
  print [PStr "Test accuracy:"; PNum acc] ;;;
  to_predict <- pd_read_csv L (path_join cwd "02-keras-2L-diabetes-predict/predicted.csv") ;;
  let diabetes_data_to_predict := to_numpy to_predict in
  predictions <- model_predict L model w diabetes_data_to_predict ;;
  for_each predictions (fun prediction =>
    print [PStr (if Qc_ltb half (hd q0 prediction) then "Person have got diabetes..."
                 else "Person is healthy...")]).

(** A run of the module from a fresh interpreter, whose numpy generator is in
    state [rng]. *)
Definition run (L : Lib) (env : Env) (rng : nat) : Result unit * St :=
  script L env (mkSt [] rng).

End Diabetes.

(** ** [_homeworks_/homework_04/cardiotocographic-classification.py] *)

Module Cardio.

Definition create_cardiotocographic_model (input_dim num_categories : nat) (name : option string) : M Model :=
  model <- Sequential name ;;
  model <- model_add model (mkDense 64 "relu" (Some input_dim) "Hidden1") ;;
  model <- model_add model (mkDense 64 "relu" None "Hidden2") ;;
  model <- model_add model (mkDense num_categories "softmax" None "output") ;;
  model_summary model ;;;
  model_compile model (mkCompiled "categorical_crossentropy" "rmsprop" ["categorical_accuracy"]).

(** [X.shape[1]] of a 2-D array. *)
Definition shape1 (X : Matrix) : nat := n_features X.

Definition train_evaluate_save_model (L : Lib) (X_train y_train X_test y_test X_to_predict : Matrix)
    (num_categories : nat) (name : string) (epochs : nat) : M (History * Qc * Qc * Matrix) :=
  model <- create_cardiotocographic_model (shape1 X_train) num_categories (Some "cardiotocographic-predictor") ;;
  fitted <- model_fit L model X_train y_train (mkFitOpts epochs 32 (2 # 10)) ;;
  let (w, hist) := fitted in
  res <- model_evaluate L model w X_test y_test ;;
  match res with
  | [loss; category_accuracy] =>
      predictions <- model_predict L model w X_to_predict ;;
      model_save L (name ++ ".h5") ;;;
      ret (hist, loss, category_accuracy, predictions)
  | _ => lift (Err (ValueError "too many values to unpack"))
  end.

Fixpoint dict_get (h : History) (k : string) : Result (list Qc) :=
  match h with
  | [] => Err (KeyError k)
  | (k', v) :: h' => if String.eqb k' k then Ok v else dict_get h' k
  end.

Definition plot_metric_graph (L : Lib) (hist : History) (metric title : string) : M unit :=
  _ <- lift (dict_get hist metric) ;;
  _ <- lift (dict_get hist ("val_" ++ metric)) ;;
  plt_savefig L (title ++ ".jpg") ;;;
  emit EvShow.

Definition CTG_columns : list string :=
  ["LB"; "AC"; "FM"; "UC"; "DL"; "DS"; "DP"; "ASTV"; "MSTV"; "ALTV"; "MLTV"; "Width";
   "Min"; "Max"; "Nmax"; "Nzeros"; "Mode"; "Mean"; "Median"; "Variance"; "Tendency"; "NSP"].

Definition labels : list string := ["Normal patient"; "Suspect patient"; "Pathologic patient"].

Definition rule : string := "################################".

Definition main (L : Lib) (env : Env) : M unit :=
  raw <- pd_read_excel L "CTG.xls" "Raw Data" "G:AN" ;;
  let CTG_data := dropna raw in
  CTG_data <- lift (loc_cols CTG_data CTG_columns) ;;
  split <- train_test_split L CTG_data (2 # 10) ;;
  let (training_set, test_set) := split in
  let X_train := iloc_drop_last training_set in
  y_train <- lift (iloc_last training_set) ;;
  let X_test := iloc_drop_last test_set in
  y_test <- lift (iloc_last test_set) ;;
  scaled <- scaler_fit_transform (to_numpy X_train) ;;
  let (scaler, X_train_s) := scaled in
  let X_train := astype_float16 L X_train_s in
  X_test_s <- scaler_transform scaler (to_numpy X_test) ;;
  let X_test := astype_float16 L X_test_s in
  enc_train <- encoder_fit_transform (series_values y_train) ;;
  let y_train := snd enc_train in
  enc_test <- encoder_fit_transform (series_values y_test) ;;
  let y_test := snd enc_test in
  to_predict <- pd_read_csv L "predicted.csv" ;;
  cardiotocographic_data_to_predict <- scaler_transform scaler (to_numpy to_predict) ;;
  let num_categories := length labels in
  out <- train_evaluate_save_model L X_train y_train X_test y_test cardiotocographic_data_to_predict
           num_categories "cardiotocographic-predictor" 5 ;;
  let '(hist, loss, categorical_accuracy, predictions) := out in
  plot_metric_graph L hist "loss" "Epoch-Loss Graph" ;;;
  plot_metric_graph L hist "categorical_accuracy" "Epoch-Categorical Accuracy Graph" ;;;
  print [PStr rule] ;;;
  print [PStr "Model Evaluation Metrics:"] ;;;
  print [PStr "loss: "; PNum loss; PStr (newline ++ "categorical_accuracy: "); PNum categorical_accuracy] ;;;
  print [PStr rule] ;;;
  idx <- lift (np_argmax_rows predictions) ;;
  for_each idx (fun prediction =>
    lbl <- lift (py_index labels prediction) ;;
    print [PStr lbl]) ;;;
  pickle_dump L "cardiotocographic.pickle" scaler.

(** [if __name__ == '__main__': main()], from a fresh interpreter whose numpy
    generator is in state [rng]. *)
Definition run (L : Lib) (env : Env) (rng : nat) : Result unit * St :=
  main L env (mkSt [] rng).

End Cardio.

(** ** A small concrete library instance, used to evaluate the scripts *)

Module Toy.

Definition rotate (k : nat) (l : list nat) : list nat :=
  let k' := Nat.modulo k (Nat.max 1 (length l)) in skipn k' l ++ firstn k' l.

(** numpy's draw modelled as a rotation of [0..n-1] by the generator state. *)
Definition perm (n r : nat) : list nat * nat := (rotate r (seq 0 n), S r).

Definition row3 (a b c : Z) : Row := [qz a; qz b; qz c].

Definition diabetes_frame : DataFrame :=
  mkDF ["Glucose"; "BMI"; "Outcome"]
       [(0, row3 148 33 1); (1, row3 85 26 0); (2, row3 183 23 1);
        (3, row3 89 28 0); (4, row3 137 43 1)].

Definition predicted_frame : DataFrame :=
  mkDF ["Glucose"; "BMI"] [(0, [qz 150; qz 30]); (1, [qz 80; qz 20])].

Definition ctg_row (i : nat) (nsp : Z) : nat * list (option Qc) :=
  (i, map (fun k => Some (qz (Z.of_nat (k + i)))) (seq 0 21) ++ [Some (qz nsp)]).

Definition ctg_raw : RawFrame :=
  mkRaw Cardio.CTG_columns
        ((5, [None]) :: map (fun i => ctg_row i (Z.of_nat (Nat.modulo i 3) + 1)) (seq 0 15)).

Definition ctg_predicted : DataFrame :=
  mkDF (removelast Cardio.CTG_columns)
       [(0, map (fun k => qz (Z.of_nat k)) (seq 0 21)); (1, map (fun k => qz (Z.of_nat (2 * k))) (seq 0 21))].

Definition history : History :=
  [("loss", [q1]); ("val_loss", [q1]); ("categorical_accuracy", [half]); ("val_categorical_accuracy", [half])].

(** The library instance reading the given frame from [CTG.xls]. *)
Definition lib_with (ctg : RawFrame) : Lib := {|
  read_csv := fun p =>
    if String.eqb p "/data/02-keras-2L-diabetes-predict/diabetes.csv" then Ok diabetes_frame
    else if String.eqb p "/data/02-keras-2L-diabetes-predict/predicted.csv" then Ok predicted_frame
    else if String.eqb p "predicted.csv" then Ok ctg_predicted
    else Err (FileNotFoundError p);
  read_excel := fun p _ _ => if String.eqb p "CTG.xls" then Ok ctg else Err (FileNotFoundError p);
  permutation := perm;
  keras_train := fun _ _ _ _ => Ok ([], history);
  neuron := fun _ x j => if Nat.eqb j 0 then Q2Qc (3 # 4) else qz (Z.of_nat j);
  loss_value := fun _ _ _ _ => half;
  to_float16 := fun q => q;
  write_file := fun _ => Ok tt
|}.

Definition lib : Lib := lib_with ctg_raw.

(** A sheet with a single complete row. *)
Definition ctg_raw_one : RawFrame := mkRaw Cardio.CTG_columns [ctg_row 0 1].

Definition env : Env := mkEnv "/data" ["keras-predictor.py"].


(** A file to predict whose rows carry the target column too: 22 values. *)
Definition predicted_with_target : DataFrame :=
  mkDF Cardio.CTG_columns [(0, map (fun k => qz (Z.of_nat k)) (seq 0 21) ++ [q1])].

(** The toy library, reading [P] as predicted.csv. *)
Definition lib_predicted (P : DataFrame) : Lib := {|
  read_csv := fun p => if String.eqb p "predicted.csv" then Ok P else read_csv lib p;
  read_excel := read_excel lib;
  permutation := permutation lib;
  keras_train := keras_train lib;
  neuron := neuron lib;
  loss_value := loss_value lib;
  to_float16 := to_float16 lib;
  write_file := write_file lib
|}.

End Toy.

(** ** Observations on traces *)

(** The pipeline stages named by the spec. *)
Inductive Phase : Type :=
| PLoad | PSplit | PScaleEncode | PBuild | PFit | PEvaluate | PPredict | PReportSave.

Scheme Equality for Phase.

Definition phase_of (ev : Event) : Phase :=
  match ev with
  | EvReadCsv _ | EvReadExcel _ _ _ => PLoad
  | EvSplit _ _ _ => PSplit
  | EvScalerFit _ | EvScalerTransform _ | EvEncoderFitTransform _ => PScaleEncode
  | EvSequential _ | EvAdd _ | EvSummary _ | EvCompile _ => PBuild
  | EvFit _ _ _ => PFit
  | EvEvaluate _ _ _ => PEvaluate
  | EvPredict _ _ => PPredict
  | EvSaveModel _ | EvSaveFig _ | EvShow | EvPrint _ | EvPickle _ _ => PReportSave
  end.

(** Merge runs of equal consecutive phases. *)
Fixpoint compress (l : list Phase) : list Phase :=
  match l with
  | [] => []
  | x :: l' => match compress l' with
               | [] => [x]
               | y :: c => if Phase_beq x y then y :: c else x :: y :: c
               end
  end.

Definition phases (tr : list Event) : list Phase := compress (map phase_of tr).

(** Events that write a file. *)
Definition is_write (ev : Event) : bool :=
  match ev with
  | EvSaveModel _ | EvSaveFig _ | EvPickle _ _ => true
  | _ => false
  end.

Definition is_print (ev : Event) : bool :=
  match ev with EvPrint _ => true | _ => false end.

(** The split drawn in a trace, if any. *)
Fixpoint split_of (tr : list Event) : option (list nat * list nat) :=
  match tr with
  | [] => None
  | EvSplit _ trn tst :: _ => Some (trn, tst)
  | _ :: tr' => split_of tr'
  end.

(** A one-hot row: every entry 0 or 1, and the entries sum to 1. *)
Definition one_hot (r : Row) : Prop :=
  Forall (fun b => b = q0 \/ b = q1) r /\ qc_sum r = q1.

(** The column an encoder assigns to a label. *)
Fixpoint position (v : Qc) (l : list Qc) : option nat :=
  match l with
  | [] => None
  | c :: l' => if Qc_eqb c v then Some 0
               else match position v l' with Some i => Some (S i) | None => None end
  end.

Definition column_of (enc : OneHotEncoder) (v : Qc) : option nat := position v (categories enc).

(** The model an event carries, if any. *)
Definition model_of (ev : Event) : option Model :=
  match ev with
  | EvSummary m | EvFit m _ _ | EvEvaluate m _ _ | EvPredict m _ => Some m
  | _ => None
  end.

(** numpy's draw is a permutation of [0..n-1]. *)
Definition perm_ok (L : Lib) : Prop := forall n r, Permutation (fst (permutation L n r)) (seq 0 n).

(** What the diabetes script passes to [fit] from a training frame. *)
Definition diabetes_fit_data (T : DataFrame) : Result (Matrix * Matrix) :=
  match iloc_last T with
  | Ok y => Ok (to_numpy (iloc_drop_last T), Diabetes.series_col y)
  | Err e => Err e
  end.

(** What the cardiotocographic script passes to [fit] from a training frame:
    the scaler and the encoder are fitted on that frame alone. *)
Definition cardio_fit_data (L : Lib) (T : DataFrame) : Result (Matrix * Matrix) :=
  match iloc_last T with
  | Err e => Err e
  | Ok y =>
      match mms_fit (to_numpy (iloc_drop_last T)) with
      | Err e => Err e
      | Ok sc =>
          match mms_transform sc (to_numpy (iloc_drop_last T)) with
          | Err e => Err e
          | Ok Xs =>
              match ohe_fit_transform (series_values y) with
              | Err e => Err e
              | Ok enc => Ok (astype_float16 L Xs, snd enc)
              end
          end
      end
  end.

(** ** Symbolic execution of the scripts *)

Lemma for_each_prints {A} (xs : list A) (body : A -> M unit) :
  (forall x s r s', body x s = (r, s') ->
     st_rng s' = st_rng s /\ exists evs, st_trace s' = st_trace s ++ evs /\ forallb is_print evs = true) ->
  forall s r s', for_each xs body s = (r, s') ->
     st_rng s' = st_rng s /\ exists evs, st_trace s' = st_trace s ++ evs /\ forallb is_print evs = true.
Proof.
  intros Hbody. induction xs as [|x xs IH]; intros s r s' H; cbn in H.
  - injection H as <- <-. split; [reflexivity|]. exists []. rewrite app_nil_r. auto.
  - unfold bind in H. destruct (body x s) as [[[]|e] s1] eqn:Hb.
    + destruct (Hbody _ _ _ _ Hb) as [Hr1 [evs1 [Ht1 Hp1]]].
      destruct (IH _ _ _ H) as [Hr2 [evs2 [Ht2 Hp2]]].
      split; [congruence|]. exists (evs1 ++ evs2). rewrite Ht2, Ht1, app_assoc.
      split; [reflexivity|]. rewrite forallb_app, Hp1, Hp2. reflexivity.
    + injection H as <- <-. exact (Hbody _ _ _ _ Hb).
Qed.

Ltac unfold_steps H :=
  unfold Diabetes.run, Diabetes.script, Cardio.run, Cardio.main,
    Cardio.create_cardiotocographic_model, Cardio.train_evaluate_save_model,
    Cardio.plot_metric_graph, pd_read_csv, pd_read_excel, train_test_split,
    scaler_fit_transform, scaler_transform, encoder_fit_transform, Sequential,
    model_add, model_summary, model_compile, model_fit, model_predict,
    model_evaluate, model_save, plt_savefig, pickle_dump, print, call, emit,
    lift, ret, bind in H.

(** Case on the term in evaluation position: the innermost discriminee of
    the chain of stuck matches at the head. *)
Ltac step_on t :=
  lazymatch t with
  | match ?x with (_, _) => _ end => first [step_on x | destruct x eqn:?]
  | match ?x with Ok _ => _ | Err _ => _ end => first [step_on x | destruct x eqn:?]
  | match ?x with Some _ => _ | None => _ end => first [step_on x | destruct x eqn:?]
  | match ?x with [] => _ | _ :: _ => _ end => first [step_on x | destruct x eqn:?]
  | if ?x then _ else _ => first [step_on x | destruct x eqn:?]
  | (match ?x with (_, _) => _ end) _ => first [step_on x | destruct x eqn:?]
  | (match ?x with Ok _ => _ | Err _ => _ end) _ => first [step_on x | destruct x eqn:?]
  | (match ?x with [] => _ | _ :: _ => _ end) _ => first [step_on x | destruct x eqn:?]
  end.

Ltac sym H :=
  unfold_steps H;
  repeat (cbn -[mms_fit mms_transform ohe_fit_transform keras_evaluate keras_predict
               iloc_last loc_cols np_argmax_rows py_index n_test_of take_rows
               iloc_drop_last to_numpy dropna astype_float16 series_values
               Diabetes.series_col path_join Cardio.dict_get for_each inputs_fit
               targets_fit] in H;
    lazymatch type of H with
    | (Ok _, _) = (_, _) => injection H as <- <-
    | (Err _, _) = (_, _) => injection H as <- <-
    | ?lhs = _ => step_on lhs
    end).

Ltac close_body :=
  intros ? ? ? ? Hx; cbn -[py_index] in Hx;
  repeat match type of Hx with
         | context [match ?x with Ok _ => _ | Err _ => _ end] => destruct x
         end;
  injection Hx as <- <-; cbn;
  (split; [reflexivity|]);
  first [ exists []; rewrite app_nil_r; split; reflexivity
        | eexists; split; reflexivity ].

(** Run the final print loop of a script: the loop only appends prints. *)
Ltac loop H :=
  let Hr := fresh "Hrng" in let evs := fresh "evs" in
  let Ht := fresh "Htr" in let Hp := fresh "Hprints" in
  apply for_each_prints in H as [Hr [evs [Ht Hp]]]; [|close_body].

Lemma prints_phase (evs : list Event) :
  forallb is_print evs = true -> Forall (eq PReportSave) (map phase_of evs).
Proof.
  induction evs as [|ev evs IH]; cbn; [constructor|].
  rewrite andb_true_iff. intros [H1 H2]. constructor; [|auto].
  destruct ev; cbn in H1 |- *; first [reflexivity | discriminate].
Qed.

Lemma compress_cons (x : Phase) (t : list Phase) :
  compress (x :: t) = match compress t with
                      | [] => [x]
                      | y :: c => if Phase_beq x y then y :: c else x :: y :: c
                      end.
Proof. reflexivity. Qed.

Lemma compress_cons_congr (x : Phase) (t1 t2 : list Phase) :
  compress t1 = compress t2 -> compress (x :: t1) = compress (x :: t2).
Proof. intros H. cbn. rewrite H. reflexivity. Qed.

Lemma compress_const (p : Phase) (m : list Phase) :
  m <> [] -> Forall (eq p) m -> compress m = [p].
Proof.
  induction m as [|x m IH]; intros Hne Hall; [congruence|].
  inversion Hall as [|? ? Hx Hm]; clear Hall.
  destruct m as [|y m].
  - rewrite <- Hx. reflexivity.
  - assert (Hc : compress (y :: m) = [p]) by (apply IH; [discriminate | assumption]).
    rewrite compress_cons, Hc, <- Hx. destruct p; reflexivity.
Qed.

Lemma compress_app_const (p : Phase) (l m : list Phase) :
  m <> [] -> Forall (eq p) m -> compress (l ++ m) = compress (l ++ [p]).
Proof.
  intros Hne Hall. induction l as [|x l IH]; cbn [app].
  - rewrite (compress_const p m Hne Hall). reflexivity.
  - apply compress_cons_congr. exact IH.
Qed.

(** The phases of a trace followed by a run of prints. *)
Lemma phases_then_prints (pre evs : list Event) :
  forallb is_print evs = true ->
  phases (pre ++ evs) = phases pre \/ phases (pre ++ evs) = compress (map phase_of pre ++ [PReportSave]).
Proof.
  intros Hp. unfold phases. rewrite map_app.
  destruct evs as [|ev evs'].
  - left. rewrite app_nil_r. reflexivity.
  - right. apply compress_app_const; [discriminate|]. apply prints_phase. exact Hp.
Qed.

(** The phases of a trace followed by a non-empty tail of report/save events. *)
Lemma phases_then_reports (pre tl : list Event) :
  tl <> [] -> Forall (eq PReportSave) (map phase_of tl) ->
  phases (pre ++ tl) = compress (map phase_of pre ++ [PReportSave]).
Proof.
  intros Hne Hall. unfold phases. rewrite map_app. apply compress_app_const; [|exact Hall].
  destruct tl; [congruence | discriminate].
Qed.

(** ** Canonical rationals *)

Lemma Qc_eqb_eq (x y : Qc) : Qc_eqb x y = true <-> x = y.
Proof.
  unfold Qc_eqb. rewrite Qeq_bool_iff. split.
  - apply Qc_is_canon.
  - intros ->. reflexivity.
Qed.

Lemma Qc_eqb_refl (x : Qc) : Qc_eqb x x = true.
Proof. apply Qc_eqb_eq. reflexivity. Qed.

Lemma Qc_eqb_neq (x y : Qc) : x <> y -> Qc_eqb x y = false.
Proof. intros H. destruct (Qc_eqb x y) eqn:E; [apply Qc_eqb_eq in E; contradiction | reflexivity]. Qed.

Lemma Qclt_transitive : Relations_1.Transitive Qclt.
Proof. intros x y z. apply Qclt_trans. Qed.

(** ** [np.unique] *)

Lemma In_insert_unique (v x : Qc) (l : list Qc) :
  In x (insert_unique v l) <-> x = v \/ In x l.
Proof.
  induction l as [|c l IH]; cbn.
  - split; (intros [->|[]]; left; reflexivity).
  - destruct (Qccompare v c) eqn:E; cbn.
    + apply Qceq_alt in E. subst c. split; [intros H; right; exact H|].
      intros [->|H]; [left; reflexivity | exact H].
    + split; intros [H|H]; (subst; auto).
    + rewrite IH. split.
      * intros [H|[H|H]]; auto.
      * intros [H|[H|H]]; auto.
Qed.

Lemma In_np_unique (x : Qc) (l : list Qc) : In x (np_unique l) <-> In x l.
Proof.
  induction l as [|v l IH]; cbn; [tauto|].
  rewrite In_insert_unique, IH. intuition.
Qed.

Lemma insert_unique_sorted (v : Qc) (l : list Qc) :
  Sorted Qclt l -> Sorted Qclt (insert_unique v l).
Proof.
  induction l as [|c l IH]; intros Hs; cbn; [repeat constructor|].
  destruct (Qccompare v c) eqn:E.
  - exact Hs.
  - constructor; [exact Hs | constructor]. apply Qclt_alt. exact E.
  - inversion Hs as [|? ? Hl Hhd]; subst.
    constructor; [apply IH; exact Hl|].
    assert (Hcv : Qclt c v) by (apply Qcgt_alt; exact E).
    destruct l as [|d l]; cbn; [constructor; exact Hcv|].
    inversion Hhd; subst.
    destruct (Qccompare v d); constructor; assumption.
Qed.

Lemma np_unique_sorted (l : list Qc) : StronglySorted Qclt (np_unique l).
Proof.
  apply Sorted_StronglySorted; [exact Qclt_transitive|].
  induction l as [|v l IH]; cbn; [constructor|].
  apply insert_unique_sorted. exact IH.
Qed.

Lemma strongly_sorted_nodup (l : list Qc) : StronglySorted Qclt l -> NoDup l.
Proof.
  induction l as [|c l IH]; intros Hs; [constructor|].
  inversion Hs as [|? ? Hl Hall]; subst. constructor; [|auto].
  intros Hin. rewrite Forall_forall in Hall. specialize (Hall c Hin).
  exact (Qclt_not_eq _ _ Hall eq_refl).
Qed.

Lemma strongly_sorted_ext (l1 l2 : list Qc) :
  StronglySorted Qclt l1 -> StronglySorted Qclt l2 ->
  (forall x, In x l1 <-> In x l2) -> l1 = l2.
Proof.
  revert l2. induction l1 as [|a l1 IH]; intros l2 H1 H2 Hx.
  - destruct l2 as [|b l2]; [reflexivity|].
    exfalso. apply (proj2 (Hx b)). left. reflexivity.
  - destruct l2 as [|b l2].
    + exfalso. apply (proj1 (Hx a)). left. reflexivity.
    + inversion H1 as [|? ? H1' Ha]; inversion H2 as [|? ? H2' Hb]; subst.
      rewrite Forall_forall in Ha, Hb.
      assert (Eab : a = b).
      { destruct (proj1 (Hx a) (or_introl eq_refl)) as [E|Hin]; [congruence|].
        destruct (proj2 (Hx b) (or_introl eq_refl)) as [E|Hin']; [congruence|].
        exfalso. apply (Qclt_not_le _ _ (Hb a Hin)). apply Qclt_le_weak. exact (Ha b Hin'). }
      subst b. f_equal. apply IH; [exact H1' | exact H2' |].
      intros x. split; intros Hin.
      * destruct (proj1 (Hx x) (or_intror Hin)) as [E|H]; [|exact H].
        subst. exfalso. exact (Qclt_not_eq _ _ (Ha x Hin) eq_refl).
      * destruct (proj2 (Hx x) (or_intror Hin)) as [E|H]; [|exact H].
        subst. exfalso. exact (Qclt_not_eq _ _ (Hb x Hin) eq_refl).
Qed.

Lemma np_unique_ext (l1 l2 : list Qc) :
  np_unique l1 = np_unique l2 <-> (forall x, In x l1 <-> In x l2).
Proof.
  split.
  - intros E x. rewrite <- (In_np_unique x l1), <- (In_np_unique x l2), E. reflexivity.
  - intros Hx. apply strongly_sorted_ext; try apply np_unique_sorted.
    intros x. rewrite !In_np_unique. apply Hx.
Qed.

(** ** One-hot rows *)

Lemma onehot_row_absent (cats : list Qc) (v : Qc) :
  ~ In v cats -> qc_sum (onehot_row cats v) = q0.
Proof.
  induction cats as [|c cats IH]; intros Hn; [reflexivity|].
  cbn. rewrite Qc_eqb_neq by (intros ->; apply Hn; left; reflexivity).
  fold (onehot_row cats v) (qc_sum (onehot_row cats v)).
  rewrite IH by (intros H; apply Hn; right; exact H). reflexivity.
Qed.

Lemma onehot_row_one_hot (cats : list Qc) (v : Qc) :
  NoDup cats -> In v cats -> one_hot (onehot_row cats v).
Proof.
  intros Hnd Hin. split.
  - unfold onehot_row. apply Forall_forall. intros b Hb. apply in_map_iff in Hb.
    destruct Hb as [c [<- _]]. destruct (Qc_eqb c v); auto.
  - induction cats as [|c cats IH]; [destruct Hin|].
    inversion Hnd as [|? ? Hc Hnd']; subst. cbn.
    fold (onehot_row cats v) (qc_sum (onehot_row cats v)).
    destruct (Qc_eqb c v) eqn:E.
    + apply Qc_eqb_eq in E. subst c. rewrite onehot_row_absent by exact Hc. reflexivity.
    + destruct Hin as [->|Hin]; [rewrite Qc_eqb_refl in E; discriminate|].
      rewrite IH by assumption. reflexivity.
Qed.

Lemma onehot_rows_one_hot (y : list Qc) : Forall one_hot (map (onehot_row (np_unique y)) y).
Proof.
  apply Forall_forall. intros r Hr.
  apply in_map_iff in Hr. destruct Hr as [x [<- Hx]].
  apply onehot_row_one_hot.
  - apply strongly_sorted_nodup, np_unique_sorted.
  - apply In_np_unique. exact Hx.
Qed.

Lemma ohe_fit_transform_one_hot (y : list Qc) (enc : OneHotEncoder) (Y : Matrix) :
  ohe_fit_transform y = Ok (enc, Y) -> Forall one_hot Y.
Proof.
  intros H. unfold ohe_fit_transform in H.
  destruct y as [|v y0]; [discriminate|].
  injection H as _ <-. exact (onehot_rows_one_hot (v :: y0)).
Qed.

Lemma position_some_iff (v : Qc) (l : list Qc) : position v l <> None <-> In v l.
Proof.
  induction l as [|c l IH]; cbn; [tauto|].
  destruct (Qc_eqb c v) eqn:E.
  - apply Qc_eqb_eq in E. split; [intros _; left; exact E | discriminate].
  - rewrite <- IH. split.
    + intros H. right. destruct (position v l); congruence.
    + intros [->|H]; [rewrite Qc_eqb_refl in E; discriminate|].
      destruct (position v l); congruence.
Qed.

(** ** [np.argmax] *)

Lemma argmax_from_lt (r : Row) : forall i best bv, best < i -> argmax_from r i best bv < i + length r.
Proof.
  induction r as [|x r IH]; intros i best bv Hb; cbn; [lia|].
  destruct (Qc_ltb bv x).
  - specialize (IH (S i) i x ltac:(lia)). lia.
  - specialize (IH (S i) best bv ltac:(lia)). lia.
Qed.

Lemma np_argmax_lt (r : Row) (k : nat) : np_argmax r = Ok k -> k < length r.
Proof.
  destruct r as [|x r]; cbn; [discriminate|].
  intros H. injection H as <-. pose proof (argmax_from_lt r 1 0 x ltac:(lia)). lia.
Qed.

Lemma np_argmax_rows_width (P : Matrix) (k : nat) :
  0 < k -> Forall (fun r => length r = k) P ->
  exists idx, np_argmax_rows P = Ok idx /\ Forall (fun i => i < k) idx.
Proof.
  intros Hk. induction P as [|r P IH]; intros Hall; cbn.
  - exists []. split; [reflexivity | constructor].
  - inversion Hall as [|? ? Hr HP]; subst.
    destruct r as [|x r']; [cbn in Hk; lia|].
    destruct (IH HP) as [idx [E Hidx]]. rewrite E.
    eexists. split; [reflexivity|]. constructor; [|exact Hidx].
    apply (np_argmax_lt (x :: r')). reflexivity.
Qed.

(** ** Metrics lie in [0, 1] *)

Lemma frac_bounds (a b : Q) : (0 <= a -> a <= b -> 0 <= a / b <= 1)%Q.
Proof.
  intros Ha Hab. destruct (Qlt_le_dec 0 b) as [Hb|Hb].
  - split.
    + apply Qle_shift_div_l; [exact Hb|]. rewrite Qmult_0_l. exact Ha.
    + apply Qle_shift_div_r; [exact Hb|]. rewrite Qmult_1_l. exact Hab.
  - assert (Hb0 : b == 0) by (apply Qle_antisym; [exact Hb | apply (Qle_trans _ a); assumption]).
    assert (Ha0 : a == 0) by (apply Qle_antisym; [rewrite <- Hb0; exact Hab | exact Ha]).
    rewrite Ha0, Hb0. split; discriminate.
Qed.

Lemma nat_frac_bounds (h n : nat) : (h <= n)%nat ->
  (0 <= inject_Z (Z.of_nat h) / inject_Z (Z.of_nat n) <= 1)%Q.
Proof.
  intros H. apply frac_bounds; unfold Qle, inject_Z; cbn [Qnum Qden]; lia.
Qed.

Lemma metric_score_bounds (name : string) (p y : Row) : (0 <= metric_score name p y <= 1)%Q.
Proof.
  unfold metric_score.
  destruct (String.eqb name "binary_accuracy").
  - unfold binary_score. apply nat_frac_bounds.
    rewrite filter_length_le, length_combine. lia.
  - destruct (String.eqb name "categorical_accuracy").
    + unfold categorical_score.
      destruct (np_argmax y), (np_argmax p); try (split; discriminate).
      destruct (Nat.eqb _ _); split; discriminate.
    + split; discriminate.
Qed.

Lemma q_sum_bounds (l : list Q) :
  Forall (fun x => 0 <= x <= 1)%Q l -> (0 <= q_sum l <= inject_Z (Z.of_nat (length l)))%Q.
Proof.
  induction l as [|x l IH]; intros Hall; cbn [q_sum fold_right length].
  - split; discriminate.
  - inversion Hall as [|? ? [Hx0 Hx1] Hl]; subst. destruct (IH Hl) as [H0 H1].
    fold (q_sum l). replace (Z.of_nat (S (length l))) with (1 + Z.of_nat (length l))%Z by lia.
    rewrite inject_Z_plus. split.
    + rewrite <- (Qplus_0_l 0). apply Qplus_le_compat; assumption.
    + apply Qplus_le_compat; assumption.
Qed.

Lemma Q2Qc_bounds (x : Q) : (0 <= x <= 1)%Q -> Qcle q0 (Q2Qc x) /\ Qcle (Q2Qc x) q1.
Proof.
  intros [H0 H1]. unfold Qcle, q0, q1, qz. cbn [this Q2Qc]. rewrite !Qred_correct. split; assumption.
Qed.

Lemma metric_value_bounds (name : string) (P Y : Matrix) :
  Qcle q0 (metric_value name P Y) /\ Qcle (metric_value name P Y) q1.
Proof.
  unfold metric_value. apply Q2Qc_bounds.
  set (l := map (fun py => metric_score name (fst py) (snd py)) (combine P Y)).
  assert (Hl : Forall (fun x => 0 <= x <= 1)%Q l).
  { apply Forall_forall. intros x Hx. apply in_map_iff in Hx. destruct Hx as [py [<- _]].
    apply metric_score_bounds. }
  destruct (q_sum_bounds l Hl) as [H0 H1]. apply frac_bounds; [exact H0|].
  apply (Qle_trans _ _ _ H1). rewrite <- Zle_Qle. unfold l.
  rewrite length_map, length_combine. lia.
Qed.

Lemma keras_evaluate_metrics (L : Lib) (m : Model) (w : Weights) (X Y : Matrix) (res : list Qc) :
  keras_evaluate L m w X Y = Ok res -> Forall (fun a => Qcle q0 a /\ Qcle a q1) (tl res).
Proof.
  unfold keras_evaluate. destruct (m_compiled m) as [c|]; [|discriminate].
  repeat match goal with |- context [if ?b then _ else _] => destruct b end; try discriminate.
  intros H. injection H as <-. cbn [tl]. apply Forall_forall. intros a Ha.
  apply in_map_iff in Ha. destruct Ha as [nm [<- _]]. apply metric_value_bounds.
Qed.

(** ** The split *)

Lemma split_partition (perm : list nat) (n k : nat) :
  Permutation perm (seq 0 n) ->
  NoDup (firstn (n - k) (skipn k perm) ++ firstn k perm) /\
  (forall i, In i (firstn (n - k) (skipn k perm) ++ firstn k perm) <-> i < n).
Proof.
  intros Hp.
  assert (Hlen : length perm = n) by (rewrite (Permutation_length Hp); apply length_seq).
  rewrite (firstn_all2 (n := n - k)) by (rewrite length_skipn; lia).
  assert (Hp' : Permutation (skipn k perm ++ firstn k perm) (seq 0 n)).
  { eapply Permutation_trans; [apply Permutation_app_comm|]. rewrite firstn_skipn. exact Hp. }
  split.
  - eapply Permutation_NoDup; [symmetry; exact Hp' | apply seq_NoDup].
  - intros i. split; intros Hi.
    + apply (Permutation_in _ Hp'), in_seq in Hi. lia.
    + apply (Permutation_in _ (Permutation_sym Hp')), in_seq. lia.
Qed.

(** ** Traces ending in prints *)

Lemma prints_not_write (evs : list Event) :
  forallb is_print evs = true -> forallb (fun ev => negb (is_write ev)) evs = true.
Proof.
  induction evs as [|ev evs IH]; cbn; [reflexivity|].
  rewrite !andb_true_iff. intros [H1 H2]. split; [|auto].
  destruct ev; cbn in H1 |- *; congruence.
Qed.

Lemma In_app_prints (ev : Event) (pre evs : list Event) :
  forallb is_print evs = true -> is_print ev = false -> In ev (pre ++ evs) -> In ev pre.
Proof.
  intros Hp Hev Hin. apply in_app_or in Hin. destruct Hin as [H|H]; [exact H|].
  rewrite forallb_forall in Hp. rewrite (Hp ev H) in Hev. discriminate.
Qed.

(** ** Reading facts off a symbolically executed trace *)

Ltac disj := first [reflexivity | left; disj | right; disj].

Lemma Forall_prints (P : Event -> Prop) (evs : list Event) :
  (forall a, P (EvPrint a)) -> forallb is_print evs = true -> Forall P evs.
Proof.
  intros HP Hp. apply Forall_forall. intros ev Hev.
  rewrite forallb_forall in Hp. specialize (Hp ev Hev). destruct ev; try discriminate. apply HP.
Qed.

Ltac forall_events tac :=
  cbn [st_trace app];
  repeat first [apply Forall_nil | apply Forall_cons | apply Forall_app; split]; tac.

Lemma py_index_1_tl {A} (l : list A) (a : A) : py_index l 1 = Ok a -> In a (tl l).
Proof.
  unfold py_index. destruct l as [|x [|y l]]; cbn; try discriminate.
  intros H. injection H as <-. left. reflexivity.
Qed.

(** Case on the position of an event in a trace. *)
Ltac in_trace Hin :=
  cbn [st_trace app In] in Hin;
  repeat match type of Hin with
  | _ \/ _ => destruct Hin as [Hin|Hin]; [try discriminate|]
  | False => destruct Hin
  | In _ (_ ++ _) => apply in_app_or in Hin; cbn [In] in Hin
  | In ?ev ?evs =>
      match goal with Hp : forallb is_print evs = true |- _ =>
        apply (proj1 (forallb_forall _ _) Hp) in Hin; discriminate end
  end.

Ltac read_fail :=
  intros;
  match goal with
  | Hin : In _ _ |- _ => in_trace Hin; try (injection Hin; intros; subst)
  | _ => idtac
  end;
  first [congruence | reflexivity | split; [congruence | reflexivity]].

Ltac held_out Hperm :=
  intros ? ? ? Hin; in_trace Hin; injection Hin; intros; subst;
  match goal with Hp : permutation ?L ?n ?r = (?l, _) |- _ =>
    let Hl := fresh "Hl" in
    pose proof (Hperm n r) as Hl; rewrite Hp in Hl; cbn [fst] in Hl;
    split; [exact (proj1 (split_partition l n _ Hl)) | split; [exact (proj2 (split_partition l n _ Hl))|]]
  end;
  repeat match goal with
         | |- exists _, _ => eexists
         | |- _ /\ _ => split; [first [reflexivity | eassumption]|]
         end;
  intros ? ? ? Hfit; in_trace Hfit; injection Hfit; intros; subst;
  unfold diabetes_fit_data, cardio_fit_data;
  repeat match goal with Heq : ?t = Ok _ |- context [match ?t with _ => _ end] => rewrite Heq end;
  reflexivity.

Lemma rotate_perm (k : nat) (l : list nat) : Permutation (Toy.rotate k l) l.
Proof.
  unfold Toy.rotate. eapply Permutation_trans; [apply Permutation_app_comm|].
  rewrite firstn_skipn. reflexivity.
Qed.

Lemma toy_perm_ok : perm_ok Toy.lib.
Proof. intros n r. cbn. apply rotate_perm. Qed.

Lemma n_test_fifth (ts : Q) (n : nat) : (ts == 2 # 10)%Q ->
  n <= 5 * n_test_of ts n /\ 5 * n_test_of ts n < n + 5.
Proof.
  intros Hts. unfold n_test_of.
  rewrite (Qceiling_comp _ _ (Qmult_comp _ _ Hts _ _ (Qeq_refl _))).
  set (c := Qceiling ((2 # 10) * inject_Z (Z.of_nat n))).
  pose proof (Qle_ceiling ((2 # 10) * inject_Z (Z.of_nat n))) as H1.
  pose proof (Qceiling_lt ((2 # 10) * inject_Z (Z.of_nat n))) as H2.
  fold c in H1, H2. unfold Qle, Qlt, inject_Z in H1, H2. cbn [Qnum Qden Qmult] in H1, H2.
  lia.
Qed.

Lemma n_train_zero (ts : Q) (n : nat) : (ts == 2 # 10)%Q -> (n - n_test_of ts n = 0 <-> n <= 1).
Proof. intros Hts. pose proof (n_test_fifth ts n Hts). lia. Qed.

Lemma tts_small (L : Lib) (df : DataFrame) (ts : Q) (s : St) :
  (ts == 2 # 10)%Q -> length (df_rows df) <= 1 ->
  train_test_split L df ts s = (Err (ValueError "the resulting train set will be empty"), s).
Proof.
  intros Hts Hn. unfold train_test_split. cbv zeta.
  rewrite (proj2 (n_train_zero ts _ Hts) Hn). reflexivity.
Qed.



Ltac small_split :=
  match goal with
  | Hr : Err _ = Ok _ |- _ => discriminate Hr
  | Hr : Ok _ = Ok _ |- _ => injection Hr as <-
  | _ => idtac
  end;
  first [ reflexivity
        | match goal with
          | E : Nat.eqb (?n - n_test_of ?ts ?n) 0 = false, Hn : ?n <= 1 |- _ =>
              apply PeanoNat.Nat.eqb_neq in E; exfalso; apply E;
              exact (proj2 (n_train_zero ts n ltac:(reflexivity)) Hn)
          end ].

Lemma diabetes_run_small (L : Lib) (env : Env) (rng : nat) (df : DataFrame) :
  read_csv L (path_join (cwd env) "02-keras-2L-diabetes-predict/diabetes.csv") = Ok df ->
  length (df_rows df) <= 1 ->
  Diabetes.run L env rng =
    (Err (ValueError "the resulting train set will be empty"),
     mkSt [EvReadCsv (path_join (cwd env) "02-keras-2L-diabetes-predict/diabetes.csv")] rng).
Proof.
  intros Hr Hn. destruct (Diabetes.run L env rng) as [r s0] eqn:H.
  sym H; try (loop H; rewrite Htr); small_split.
Qed.

Ltac merge :=
  repeat match goal with
  | H : Err _ = Ok _ |- _ => discriminate H
  | H : Ok _ = Err _ |- _ => discriminate H
  | H : Ok ?a = Ok ?b |- _ => injection H as H; first [subst a | subst b | idtac]
  | H : Err ?a = Err ?b |- _ => injection H as H; first [subst a | subst b | idtac]
  | E1 : ?x = Ok _, E2 : ?x = Ok _ |- _ => rewrite E1 in E2
  | E1 : ?x = Ok _, E2 : ?x = Err _ |- _ => rewrite E1 in E2
  | E1 : ?x = Err _, E2 : ?x = Err _ |- _ => rewrite E1 in E2
  end.

Lemma cardio_run_small (L : Lib) (env : Env) (rng : nat) (raw : RawFrame) (df : DataFrame) :
  read_excel L "CTG.xls" "Raw Data" "G:AN" = Ok raw ->
  loc_cols (dropna raw) Cardio.CTG_columns = Ok df ->
  length (df_rows df) <= 1 ->
  Cardio.run L env rng =
    (Err (ValueError "the resulting train set will be empty"), mkSt [EvReadExcel "CTG.xls" "Raw Data" "G:AN"] rng).
Proof.
  intros Hr Hl Hn. destruct (Cardio.run L env rng) as [r s0] eqn:H.
  sym H; try (loop Heqp1; rewrite Htr); merge; small_split.
Qed.




(** ** The claims *)

(** C1, as stated, fails: a completed run of the diabetes script writes no
    file at all, neither a model nor a scaler. *)
Lemma diabetes_run_writes_nothing :
  fst (Diabetes.run Toy.lib Toy.env 0) = Ok tt /\
  existsb is_write (st_trace (snd (Diabetes.run Toy.lib Toy.env 0))) = false.
Proof. split; vm_compute; reflexivity. Defined.

(** C1 (amended): no run of the diabetes script writes a file; a completed
    run of the cardiotocographic script saves the model to
    [cardiotocographic-predictor.h5] and pickles the scaler fitted on the
    training features to [cardiotocographic.pickle]. *)
Theorem script_writes (L : Lib) (env : Env) (rng : nat) :
  forallb (fun ev => negb (is_write ev)) (st_trace (snd (Diabetes.run L env rng))) = true /\
  (fst (Cardio.run L env rng) = Ok tt ->
     In (EvSaveModel "cardiotocographic-predictor.h5") (st_trace (snd (Cardio.run L env rng))) /\
     exists X sc, In (EvScalerFit X) (st_trace (snd (Cardio.run L env rng))) /\ mms_fit X = Ok sc /\
       In (EvPickle "cardiotocographic.pickle" sc) (st_trace (snd (Cardio.run L env rng)))).
Proof.
  split.
  - destruct (Diabetes.run L env rng) as [r s] eqn:H. cbn [snd].
    sym H; try reflexivity.
    loop H. rewrite Htr. cbn [st_trace]. rewrite forallb_app, (prints_not_write _ Hprints). reflexivity.
  - destruct (Cardio.run L env rng) as [r s] eqn:H. cbn [fst snd].
    sym H; intros Hok; try discriminate.
    loop Heqp1. rewrite Htr. cbn [st_trace].
    match goal with Hf : mms_fit ?X = Ok ?sc |- _ =>
      split; [|exists X, sc; split; [|split; [exact Hf|]]] end;
    rewrite ?in_app_iff; cbn [In]; disj.
Qed.

Lemma script_writes_witness :
  fst (Cardio.run Toy.lib Toy.env 0) = Ok tt /\
  In (EvSaveModel "cardiotocographic-predictor.h5") (st_trace (snd (Cardio.run Toy.lib Toy.env 0))).
Proof.
  assert (Hok : fst (Cardio.run Toy.lib Toy.env 0) = Ok tt) by (vm_compute; reflexivity).
  split; [exact Hok|]. exact (proj1 (proj2 (script_writes Toy.lib Toy.env 0) Hok)).
Defined.

(** C2: every model of either script has two hidden dense layers of 64 ReLU
    units and one output layer, and nothing else: a 1-unit sigmoid layer in
    every model the diabetes script summarises, fits, evaluates or predicts
    with; a [num_categories]-unit softmax layer in the model
    [create_cardiotocographic_model] builds, so 3 units in the script. *)
Theorem model_layers (L : Lib) (env : Env) (rng d n : nat) (name : option string) (s s' : St) (m : Model) :
  Forall (fun ev => forall m, model_of ev = Some m -> exists d,
            m_layers m = [mkDense 64 "relu" (Some d) "hidden-1"; mkDense 64 "relu" None "hidden-2";
                          mkDense 1 "sigmoid" None "output"])
         (st_trace (snd (Diabetes.run L env rng))) /\
  Forall (fun ev => forall m, model_of ev = Some m -> exists d,
            m_layers m = [mkDense 64 "relu" (Some d) "Hidden1"; mkDense 64 "relu" None "Hidden2";
                          mkDense 3 "softmax" None "output"])
         (st_trace (snd (Cardio.run L env rng))) /\
  (Cardio.create_cardiotocographic_model d n name s = (Ok m, s') ->
     m_layers m = [mkDense 64 "relu" (Some d) "Hidden1"; mkDense 64 "relu" None "Hidden2";
                   mkDense n "softmax" None "output"]).
Proof.
  split; [|split].
  - destruct (Diabetes.run L env rng) as [r s0] eqn:H. cbn [snd].
    sym H; try (loop H; rewrite Htr);
    forall_events ltac:(first [ apply Forall_prints; [intros ? ? Hm; discriminate | assumption]
                              | intros ? Hm; cbn in Hm; first [discriminate | injection Hm as <-; eexists; reflexivity]]).
  - destruct (Cardio.run L env rng) as [r s0] eqn:H. cbn [snd].
    sym H; try (loop Heqp1; rewrite Htr);
    forall_events ltac:(first [ apply Forall_prints; [intros ? ? Hm; discriminate | assumption]
                              | intros ? Hm; cbn in Hm; first [discriminate | injection Hm as <-; eexists; reflexivity]]).
  - intros H. sym H. reflexivity.
Qed.

Lemma model_layers_witness :
  exists m s',
    Cardio.create_cardiotocographic_model 21 3 (Some "cardiotocographic-predictor") (mkSt [] 0) = (Ok m, s') /\
    m_layers m = [mkDense 64 "relu" (Some 21) "Hidden1"; mkDense 64 "relu" None "Hidden2";
                  mkDense 3 "softmax" None "output"].
Proof.
  eexists; eexists; split; [reflexivity|].
  eapply (proj2 (proj2 (model_layers Toy.lib Toy.env 0 21 3 (Some "cardiotocographic-predictor") (mkSt [] 0) _ _))).
  reflexivity.
Defined.

(** C3, as stated, fails: a completed run of the diabetes script has no
    scale/encode phase and saves nothing, and it loads a second file after
    reporting the accuracy, so its phases are not
    load, split, scale/encode, build, fit, evaluate, predict, report/save. *)
Lemma diabetes_phases_differ :
  fst (Diabetes.run Toy.lib Toy.env 0) = Ok tt /\
  phases (st_trace (snd (Diabetes.run Toy.lib Toy.env 0))) <>
    [PLoad; PSplit; PScaleEncode; PBuild; PFit; PEvaluate; PPredict; PReportSave].
Proof. split; vm_compute; [reflexivity | intro Hc; discriminate Hc]. Defined.

(** C3 (amended): the phases of a completed run are, for the diabetes
    script, load, split, build, fit, evaluate, report (the accuracy), load
    (the file to predict), predict, then report when there is at least one
    prediction; every report/save event of the diabetes script is a print,
    so it never saves a model, a figure or a scaler; for the
    cardiotocographic script, load, split, scale/encode, load (the file to
    predict), scale/encode, build, fit, evaluate, predict, report/save. *)
Theorem pipeline_phases (L : Lib) (env : Env) (rng : nat) :
  (fst (Diabetes.run L env rng) = Ok tt ->
     phases (st_trace (snd (Diabetes.run L env rng))) =
       [PLoad; PSplit; PBuild; PFit; PEvaluate; PReportSave; PLoad; PPredict] \/
     phases (st_trace (snd (Diabetes.run L env rng))) =
       [PLoad; PSplit; PBuild; PFit; PEvaluate; PReportSave; PLoad; PPredict; PReportSave]) /\
  Forall (fun ev => is_write ev = false /\ (phase_of ev = PReportSave -> is_print ev = true))
         (st_trace (snd (Diabetes.run L env rng))) /\
  (fst (Cardio.run L env rng) = Ok tt ->
     phases (st_trace (snd (Cardio.run L env rng))) =
       [PLoad; PSplit; PScaleEncode; PLoad; PScaleEncode; PBuild; PFit; PEvaluate; PPredict; PReportSave]).
Proof.
  split; [|split].
  - destruct (Diabetes.run L env rng) as [r s] eqn:H. cbn [fst snd].
    sym H; intros Hok; try discriminate.
    loop H. rewrite Htr. cbn [st_trace].
    match goal with |- context [phases (?pre ++ evs)] =>
      destruct (phases_then_prints pre evs Hprints) as [E|E]; rewrite E; [left|right]; reflexivity end.
  - destruct (Diabetes.run L env rng) as [r s] eqn:H. cbn [snd].
    sym H; try (loop H; rewrite Htr);
    forall_events ltac:(first [ apply Forall_prints; [intros ?; split; reflexivity | assumption]
                              | split; [reflexivity | cbn; intros Hp; first [reflexivity | discriminate Hp]]]).
  - destruct (Cardio.run L env rng) as [r s] eqn:H. cbn [fst snd].
    sym H; intros Hok; try discriminate.
    loop Heqp1. rewrite Htr. cbn [st_trace]. rewrite <- app_assoc.
    match goal with |- phases (?pre ++ ?tl) = _ => rewrite (phases_then_reports pre tl) end.
    + reflexivity.
    + destruct evs; discriminate.
    + rewrite map_app. apply Forall_app. split; [apply prints_phase; exact Hprints | repeat constructor].
Qed.

Lemma pipeline_phases_witness :
  fst (Diabetes.run Toy.lib Toy.env 0) = Ok tt /\
  (phases (st_trace (snd (Diabetes.run Toy.lib Toy.env 0))) =
     [PLoad; PSplit; PBuild; PFit; PEvaluate; PReportSave; PLoad; PPredict] \/
   phases (st_trace (snd (Diabetes.run Toy.lib Toy.env 0))) =
     [PLoad; PSplit; PBuild; PFit; PEvaluate; PReportSave; PLoad; PPredict; PReportSave]) /\
  fst (Cardio.run Toy.lib Toy.env 0) = Ok tt /\
  phases (st_trace (snd (Cardio.run Toy.lib Toy.env 0))) =
    [PLoad; PSplit; PScaleEncode; PLoad; PScaleEncode; PBuild; PFit; PEvaluate; PPredict; PReportSave].
Proof.
  assert (Hd : fst (Diabetes.run Toy.lib Toy.env 0) = Ok tt) by (vm_compute; reflexivity).
  assert (Hc : fst (Cardio.run Toy.lib Toy.env 0) = Ok tt) by (vm_compute; reflexivity).
  exact (conj Hd (conj (proj1 (pipeline_phases Toy.lib Toy.env 0) Hd)
                       (conj Hc (proj2 (proj2 (pipeline_phases Toy.lib Toy.env 0)) Hc)))).
Defined.

(** C4, as stated, fails: the scripts take no seed, and the split is drawn
    from numpy's generator in whatever state it starts, so two completed
    runs on the same data split differently; and a fixed dataset can make
    the pipeline fail: on a sheet with a single complete row,
    [train_test_split] raises, its training set being empty. *)
Lemma split_depends_on_generator :
  fst (Diabetes.run Toy.lib Toy.env 0) = Ok tt /\
  fst (Diabetes.run Toy.lib Toy.env 1) = Ok tt /\
  split_of (st_trace (snd (Diabetes.run Toy.lib Toy.env 0))) <>
    split_of (st_trace (snd (Diabetes.run Toy.lib Toy.env 1))) /\
  fst (Cardio.run (Toy.lib_with Toy.ctg_raw_one) Toy.env 0) =
    Err (ValueError "the resulting train set will be empty").
Proof.
  split; [|split; [|split]]; vm_compute; first [reflexivity | intro Hc; discriminate Hc].
Defined.

(** C4 (amended): neither script takes a seed; the split is a function of
    the number of rows and of the generator's state when the run starts
    (the test positions are the first [ceil(test_size * n)] entries of the
    drawn permutation, the training positions the rest), and a completed
    run reports an accuracy in [0, 1]; a run on data of at most one row does
    not complete: [train_test_split] raises ValueError. *)
Theorem split_and_accuracy (L : Lib) (env : Env) (rng : nat) :
  (((forall n trn tst, In (EvSplit n trn tst) (st_trace (snd (Diabetes.run L env rng))) ->
      tst = firstn (n_test_of (1 - Diabetes.DIVIDE_RATIO) n) (fst (permutation L n rng)) /\
      trn = firstn (n - n_test_of (1 - Diabetes.DIVIDE_RATIO) n)
                   (skipn (n_test_of (1 - Diabetes.DIVIDE_RATIO) n) (fst (permutation L n rng)))) /\
   (fst (Diabetes.run L env rng) = Ok tt ->
      exists acc, In (EvPrint [PStr "Test accuracy:"; PNum acc]) (st_trace (snd (Diabetes.run L env rng))) /\
                  Qcle q0 acc /\ Qcle acc q1)) /\
   (forall df, read_csv L (path_join (cwd env) "02-keras-2L-diabetes-predict/diabetes.csv") = Ok df ->
      length (df_rows df) <= 1 ->
      fst (Diabetes.run L env rng) = Err (ValueError "the resulting train set will be empty"))) /\
  (((forall n trn tst, In (EvSplit n trn tst) (st_trace (snd (Cardio.run L env rng))) ->
      tst = firstn (n_test_of (2 # 10) n) (fst (permutation L n rng)) /\
      trn = firstn (n - n_test_of (2 # 10) n) (skipn (n_test_of (2 # 10) n) (fst (permutation L n rng)))) /\
   (fst (Cardio.run L env rng) = Ok tt ->
      exists loss acc,
        In (EvPrint [PStr "loss: "; PNum loss; PStr (newline ++ "categorical_accuracy: "); PNum acc])
           (st_trace (snd (Cardio.run L env rng))) /\
        Qcle q0 acc /\ Qcle acc q1)) /\
   (forall raw df, read_excel L "CTG.xls" "Raw Data" "G:AN" = Ok raw ->
      loc_cols (dropna raw) Cardio.CTG_columns = Ok df -> length (df_rows df) <= 1 ->
      fst (Cardio.run L env rng) = Err (ValueError "the resulting train set will be empty"))).
Proof.
  split; split.
  - destruct (Diabetes.run L env rng) as [r s0] eqn:H. cbn [fst snd].
    sym H; try (loop H; rewrite Htr);
    (split; [intros n' trn tst Hin; in_trace Hin; injection Hin as <- <- <-;
             match goal with Hp : permutation _ _ _ = _ |- _ => rewrite Hp end; split; reflexivity
            | intros Hok; try discriminate]).
    match goal with
    | He : keras_evaluate _ _ _ _ _ = Ok ?score, Hi : py_index ?score 1 = Ok ?acc |- _ =>
        pose proof (keras_evaluate_metrics _ _ _ _ _ _ He) as Hm;
        apply py_index_1_tl in Hi; rewrite Forall_forall in Hm;
        exists acc; split; [|exact (Hm acc Hi)]
    end.
    rewrite ?in_app_iff; cbn [In]; disj.
  - intros df Hr Hn. rewrite (diabetes_run_small L env rng df Hr Hn). reflexivity.
  - destruct (Cardio.run L env rng) as [r s0] eqn:H. cbn [fst snd].
    sym H; try (loop Heqp1; rewrite Htr);
    (split; [intros n' trn tst Hin; in_trace Hin; injection Hin as <- <- <-;
             match goal with Hp : permutation _ _ _ = _ |- _ => rewrite Hp end; split; reflexivity
            | intros Hok; try discriminate]).
    match goal with
    | He : keras_evaluate _ _ _ _ _ = Ok [?loss; ?acc] |- _ =>
        pose proof (keras_evaluate_metrics _ _ _ _ _ _ He) as Hm; cbn [tl] in Hm;
        inversion Hm as [|? ? Hacc]; exists loss, acc; split; [|exact Hacc]
    end.
    rewrite ?in_app_iff; cbn [In]; disj.
  - intros raw df Hr Hl Hn. rewrite (cardio_run_small L env rng raw df Hr Hl Hn). reflexivity.
Qed.

Lemma split_and_accuracy_witness :
  In (EvSplit 5 [1; 2; 3; 4] [0]) (st_trace (snd (Diabetes.run Toy.lib Toy.env 0))) /\
  ([0] = firstn (n_test_of (1 - Diabetes.DIVIDE_RATIO) 5) (fst (permutation Toy.lib 5 0)) /\
   [1; 2; 3; 4] = firstn (5 - n_test_of (1 - Diabetes.DIVIDE_RATIO) 5)
                  (skipn (n_test_of (1 - Diabetes.DIVIDE_RATIO) 5) (fst (permutation Toy.lib 5 0)))) /\
  fst (Cardio.run Toy.lib Toy.env 0) = Ok tt /\
  exists loss acc,
    In (EvPrint [PStr "loss: "; PNum loss; PStr (newline ++ "categorical_accuracy: "); PNum acc])
       (st_trace (snd (Cardio.run Toy.lib Toy.env 0))) /\
    Qcle q0 acc /\ Qcle acc q1.
Proof.
  assert (Hin : In (EvSplit 5 [1; 2; 3; 4] [0]) (st_trace (snd (Diabetes.run Toy.lib Toy.env 0))))
    by (vm_compute; disj).
  assert (Hc : fst (Cardio.run Toy.lib Toy.env 0) = Ok tt) by (vm_compute; reflexivity).
  exact (conj Hin (conj (proj1 (proj1 (proj1 (split_and_accuracy Toy.lib Toy.env 0))) 5 _ _ Hin)
                        (conj Hc (proj2 (proj1 (proj2 (split_and_accuracy Toy.lib Toy.env 0))) Hc)))).
Defined.



(** C6: neither script reads its command line: two runs that differ only in
    [sys.argv] have the same outcome and the same trace. *)
Theorem argv_ignored (L : Lib) (c : string) (a1 a2 : list string) (rng : nat) :
  Diabetes.run L (mkEnv c a1) rng = Diabetes.run L (mkEnv c a2) rng /\
  Cardio.run L (mkEnv c a1) rng = Cardio.run L (mkEnv c a2) rng.
Proof. split; reflexivity. Qed.

(** C7: every row the one-hot encoder produces holds 0s and 1s summing to
    1; in particular every row of the encoded [y_train] the script fits on
    and of the encoded [y_test] it evaluates on. *)
Theorem encoded_labels_one_hot (L : Lib) (env : Env) (rng : nat) :
  (forall y enc Y, ohe_fit_transform y = Ok (enc, Y) -> Forall one_hot Y) /\
  (forall m X Y, In (EvFit m X Y) (st_trace (snd (Cardio.run L env rng))) -> Forall one_hot Y) /\
  (forall m X Y, In (EvEvaluate m X Y) (st_trace (snd (Cardio.run L env rng))) -> Forall one_hot Y).
Proof.
  split; [exact ohe_fit_transform_one_hot|].
  destruct (Cardio.run L env rng) as [r s0] eqn:H. cbn [fst snd].
  sym H; try (loop Heqp1; rewrite Htr);
  split; intros m X Y Hin; in_trace Hin; injection Hin; intros; subst;
  match goal with Hp : ohe_fit_transform _ = Ok ?p |- Forall one_hot (snd ?p) =>
    destruct p; exact (ohe_fit_transform_one_hot _ _ _ Hp) end.
Qed.

Lemma encoded_labels_one_hot_witness :
  exists enc Y, ohe_fit_transform [qz 1; qz 3; qz 2; qz 3] = Ok (enc, Y) /\ Forall one_hot Y.
Proof.
  eexists; eexists; split; [reflexivity|].
  eapply (proj1 (encoded_labels_one_hot Toy.lib Toy.env 0) [qz 1; qz 3; qz 2; qz 3]). reflexivity.
Defined.

(** C8: the split partitions the rows of the loaded dataset (its test and
    training positions are disjoint and together are [0..n-1], [n] the
    number of rows), and what is passed to [fit] is computed from the
    training rows alone; this holds whenever numpy's draw is a
    permutation. *)
Theorem split_held_out (L : Lib) (env : Env) (rng : nat) (Hperm : perm_ok L) :
  (forall n trn tst, In (EvSplit n trn tst) (st_trace (snd (Diabetes.run L env rng))) ->
     NoDup (trn ++ tst) /\ (forall i, In i (trn ++ tst) <-> i < n) /\
     exists df, read_csv L (path_join (cwd env) "02-keras-2L-diabetes-predict/diabetes.csv") = Ok df /\
       n = length (df_rows df) /\
       forall m X Y, In (EvFit m X Y) (st_trace (snd (Diabetes.run L env rng))) ->
         diabetes_fit_data (take_rows df trn) = Ok (X, Y)) /\
  (forall n trn tst, In (EvSplit n trn tst) (st_trace (snd (Cardio.run L env rng))) ->
     NoDup (trn ++ tst) /\ (forall i, In i (trn ++ tst) <-> i < n) /\
     exists raw, read_excel L "CTG.xls" "Raw Data" "G:AN" = Ok raw /\
     exists df, loc_cols (dropna raw) Cardio.CTG_columns = Ok df /\
       n = length (df_rows df) /\
       forall m X Y, In (EvFit m X Y) (st_trace (snd (Cardio.run L env rng))) ->
         cardio_fit_data L (take_rows df trn) = Ok (X, Y)).
Proof.
  split.
  - destruct (Diabetes.run L env rng) as [r s0] eqn:H. cbn [fst snd].
    sym H; try (loop H; rewrite Htr); held_out Hperm.
  - destruct (Cardio.run L env rng) as [r s0] eqn:H. cbn [fst snd].
    sym H; try (loop Heqp1; rewrite Htr); held_out Hperm.
Qed.

Lemma split_held_out_witness :
  perm_ok Toy.lib /\
  In (EvSplit 5 [1; 2; 3; 4] [0]) (st_trace (snd (Diabetes.run Toy.lib Toy.env 0))) /\
  NoDup ([1; 2; 3; 4] ++ [0]).
Proof.
  assert (Hin : In (EvSplit 5 [1; 2; 3; 4] [0]) (st_trace (snd (Diabetes.run Toy.lib Toy.env 0))))
    by (vm_compute; disj).
  exact (conj toy_perm_ok (conj Hin (proj1 (proj1 (split_held_out Toy.lib Toy.env 0 toy_perm_ok) 5 _ _ Hin)))).
Defined.

(** C9: the model the script builds has [len(labels)] = 3 output units, so
    [np.argmax] over any of its predictions yields indices in {0, 1, 2},
    each a valid index into [labels]. *)
Theorem argmax_label_in_bounds (L : Lib) (d : nat) (name : option string) (s s' : St)
    (m : Model) (w : Weights) (X P : Matrix) :
  Cardio.create_cardiotocographic_model d (length Cardio.labels) name s = (Ok m, s') ->
  keras_predict L m w X = Ok P ->
  exists idx, np_argmax_rows P = Ok idx /\
    Forall (fun i => i < 3 /\ exists lbl, py_index Cardio.labels i = Ok lbl) idx.
Proof.
  intros Hm Hp. sym Hm. unfold keras_predict in Hp.
  destruct (inputs_fit _ _); [|discriminate]. injection Hp as <-.
  destruct (np_argmax_rows_width (map (forward L (mkModel name
      [mkDense 64 "relu" (Some d) "Hidden1"; mkDense 64 "relu" None "Hidden2";
       mkDense (length Cardio.labels) "softmax" None "output"]
      (Some (mkCompiled "categorical_crossentropy" "rmsprop" ["categorical_accuracy"]))) w) X) 3)
    as [idx [E Hidx]].
  - lia.
  - apply Forall_forall. intros r Hr. apply in_map_iff in Hr. destruct Hr as [x [<- _]].
    unfold forward. rewrite length_map, length_seq. reflexivity.
  - exists idx. split; [exact E|]. eapply Forall_impl; [|exact Hidx]. intros i Hi. split; [exact Hi|].
    unfold py_index. destruct i as [|[|[|i]]]; [eexists; reflexivity.. | lia].
Qed.

Lemma argmax_label_in_bounds_witness :
  exists m s' P,
    Cardio.create_cardiotocographic_model 21 3 (Some "cardiotocographic-predictor") (mkSt [] 0) = (Ok m, s') /\
    keras_predict Toy.lib m [] (to_numpy Toy.ctg_predicted) = Ok P /\
    exists idx, np_argmax_rows P = Ok idx /\
      Forall (fun i => i < 3 /\ exists lbl, py_index Cardio.labels i = Ok lbl) idx.
Proof.
  eexists; eexists; eexists; split; [reflexivity|]; split; [vm_compute; reflexivity|].
  eapply (argmax_label_in_bounds Toy.lib 21 (Some "cardiotocographic-predictor") (mkSt [] 0) _ _ []
            (to_numpy Toy.ctg_predicted));
    [reflexivity | vm_compute; reflexivity].
Defined.

(** C10, as stated, fails: with [y_train] holding 1, 2, 3 and [y_test]
    holding 1, 2, the label 1 gets column 0 in both encodings although the
    label sets differ. *)
Lemma encoder_columns_agree_on_some_label :
  exists etr Ytr ete Yte,
    ohe_fit_transform [qz 1; qz 2; qz 3] = Ok (etr, Ytr) /\
    ohe_fit_transform [qz 1; qz 2] = Ok (ete, Yte) /\
    column_of etr (qz 1) = Some 0 /\ column_of ete (qz 1) = Some 0 /\
    existsb (Qc_eqb (qz 3)) [qz 1; qz 3; qz 2] = true /\ existsb (Qc_eqb (qz 3)) [qz 1; qz 2] = false.
Proof.
  do 4 eexists. split; [reflexivity|]. split; [reflexivity|].
  vm_compute. repeat split.
Defined.

(** C10 (amended): each [fit_transform] fits afresh, and the two encodings
    give every label the same column (present or not) exactly when
    [y_train] and [y_test] hold the same set of labels. *)
Theorem encoder_columns_agree_iff_same_labels (ytr yte : list Qc) (etr ete : OneHotEncoder) (Ytr Yte : Matrix) :
  ohe_fit_transform ytr = Ok (etr, Ytr) -> ohe_fit_transform yte = Ok (ete, Yte) ->
  ((forall v, column_of etr v = column_of ete v) <-> (forall v, In v ytr <-> In v yte)).
Proof.
  unfold ohe_fit_transform, column_of.
  destruct ytr as [|a ytr']; [discriminate|]. destruct yte as [|b yte']; [discriminate|].
  intros H1 H2. injection H1 as <- _. injection H2 as <- _. cbn [categories].
  change (insert_unique a (np_unique ytr')) with (np_unique (a :: ytr')).
  change (insert_unique b (np_unique yte')) with (np_unique (b :: yte')).
  split.
  - intros Hc v. rewrite <- (In_np_unique v (a :: ytr')), <- (In_np_unique v (b :: yte')).
    rewrite <- !position_some_iff, Hc. reflexivity.
  - intros Hs v. rewrite (proj2 (np_unique_ext (a :: ytr') (b :: yte')) Hs). reflexivity.
Qed.

Lemma encoder_columns_agree_iff_same_labels_witness :
  exists etr ete Ytr Yte,
    ohe_fit_transform [qz 1; qz 2] = Ok (etr, Ytr) /\ ohe_fit_transform [qz 2; qz 1; qz 2] = Ok (ete, Yte) /\
    ((forall v, column_of etr v = column_of ete v) <-> (forall v, In v [qz 1; qz 2] <-> In v [qz 2; qz 1; qz 2])).
Proof.
  do 4 eexists. split; [reflexivity|]. split; [reflexivity|].
  eapply (encoder_columns_agree_iff_same_labels [qz 1; qz 2] [qz 2; qz 1; qz 2]); reflexivity.
Defined.

(** * Further properties of the two scripts *)

Lemma Qc_ltb_iff (x y : Qc) : Qc_ltb x y = true <-> Qclt x y.
Proof.
  unfold Qc_ltb, Qclt. destruct (Qle_bool (this y) (this x)) eqn:E; cbn.
  - apply Qle_bool_iff in E. split; [discriminate|]. intros H. exfalso. exact (Qlt_not_le _ _ H E).
  - split; [intros _|reflexivity]. apply Qnot_le_lt. intros H. apply Qle_bool_iff in H. congruence.
Qed.

Lemma Qc_ltb_false (x y : Qc) : Qc_ltb x y = false -> Qcle y x.
Proof.
  intros H. apply Qcnot_lt_le. intros Hl. apply Qc_ltb_iff in Hl. congruence.
Qed.

Lemma argmax_from_spec (R : Row) : forall r i best bv,
  skipn i R = r -> best < i -> nth_error R best = Some bv ->
  (forall j x, j < i -> nth_error R j = Some x -> Qcle x bv) ->
  (forall j x, j < best -> nth_error R j = Some x -> Qclt x bv) ->
  exists v, nth_error R (argmax_from r i best bv) = Some v /\
    (forall j x, nth_error R j = Some x -> Qcle x v) /\
    (forall j x, j < argmax_from r i best bv -> nth_error R j = Some x -> Qclt x v).
Proof.
  induction r as [|y r IH]; intros i best bv Hsk Hb Hbv Hle Hlt; cbn.
  - exists bv. split; [exact Hbv|]. split; [|exact Hlt].
    intros j x Hj. apply Hle with j; [|exact Hj].
    assert (length R <= i) by (pose proof (length_skipn i R) as E; rewrite Hsk in E; cbn in E; lia).
    destruct (Compare_dec.lt_dec j i) as [|Hge]; [assumption|].
    rewrite (proj2 (nth_error_None R j)) in Hj by lia. discriminate.
  - assert (Hy : nth_error R i = Some y).
    { pose proof (nth_error_skipn i R 0) as E0. rewrite Hsk, <- plus_n_O in E0. cbn in E0. symmetry. exact E0. }
    assert (Hsk' : skipn (S i) R = r).
    { change (S i) with (1 + i). rewrite <- skipn_skipn, Hsk. reflexivity. }
    destruct (Qc_ltb bv y) eqn:E.
    + apply Qc_ltb_iff in E. apply IH; [exact Hsk' | lia | exact Hy | |].
      * intros j x Hj Hx. destruct (PeanoNat.Nat.eq_dec j i) as [->|Hne].
        -- rewrite Hy in Hx. injection Hx as <-. apply Qcle_refl.
        -- apply Qclt_le_weak. apply Qcle_lt_trans with bv; [apply (Hle j); [lia|exact Hx] | exact E].
      * intros j x Hj Hx. apply Qcle_lt_trans with bv; [apply (Hle j); [lia|exact Hx] | exact E].
    + apply Qc_ltb_false in E. apply IH; [exact Hsk' | lia | exact Hbv | | exact Hlt].
      intros j x Hj Hx. destruct (PeanoNat.Nat.eq_dec j i) as [->|Hne].
      * rewrite Hy in Hx. injection Hx as <-. exact E.
      * apply (Hle j); [lia|exact Hx].
Qed.

Lemma np_argmax_spec (r : Row) (Hne : r <> []) :
  exists k v, np_argmax r = Ok k /\ nth_error r k = Some v /\
    (forall j x, nth_error r j = Some x -> Qcle x v) /\
    (forall j x, j < k -> nth_error r j = Some x -> Qclt x v).
Proof.
  destruct r as [|x r]; [congruence|].
  destruct (argmax_from_spec (x :: r) r 1 0 x eq_refl ltac:(lia) eq_refl) as [v [H1 [H2 H3]]].
  - intros j y Hj Hy. destruct j; [|lia]. injection Hy as <-. apply Qcle_refl.
  - intros j y Hj. lia.
  - exists (argmax_from r 1 0 x), v. cbn [np_argmax]. auto.
Qed.

(** np_argmax on a non-empty row: the first position of a largest entry. *)
Theorem np_argmax_first_max (r : Row) (Hne : r <> []) :
  exists k v, np_argmax r = Ok k /\ nth_error r k = Some v /\
    (forall j x, nth_error r j = Some x -> Qcle x v) /\
    (forall j x, j < k -> nth_error r j = Some x -> Qclt x v).
Proof. exact (np_argmax_spec r Hne). Qed.

Lemma np_argmax_first_max_witness :
  [qz 1; qz 3; qz 3] <> [] /\ exists k, np_argmax [qz 1; qz 3; qz 3] = Ok k.
Proof.
  split; [discriminate|].
  destruct (np_argmax_first_max [qz 1; qz 3; qz 3] ltac:(discriminate)) as [k [v [E _]]].
  exists k. exact E.
Defined.

Lemma position_nth_error (v : Qc) (l : list Qc) (k : nat) :
  position v l = Some k -> nth_error l k = Some v.
Proof.
  revert k. induction l as [|c l IH]; intros k H; cbn in H; [discriminate|].
  destruct (Qc_eqb c v) eqn:E.
  - injection H as <-. apply Qc_eqb_eq in E. subst. reflexivity.
  - destruct (position v l) as [i|]; [|discriminate]. injection H as <-. cbn. apply IH. reflexivity.
Qed.

Lemma Forall2_map_self {A B} (P : A -> B -> Prop) (f : A -> B) (l : list A) :
  (forall x, In x l -> P x (f x)) -> Forall2 P l (map f l).
Proof.
  induction l as [|x l IH]; intros H; constructor.
  - apply H. left. reflexivity.
  - apply IH. intros z Hz. apply H. right. exact Hz.
Qed.

Lemma onehot_row_argmax (cats : list Qc) (v : Qc) :
  NoDup cats -> In v cats ->
  exists k, np_argmax (onehot_row cats v) = Ok k /\ position v cats = Some k /\ nth_error cats k = Some v.
Proof.
  intros Hnd Hin.
  destruct (position v cats) as [k|] eqn:Ep; [|exfalso; apply (proj2 (position_some_iff v cats) Hin); exact Ep].
  pose proof (position_nth_error v cats k Ep) as Hk.
  assert (Hne : onehot_row cats v <> []) by (destruct cats; [destruct Hin | discriminate]).
  destruct (np_argmax_spec _ Hne) as [k' [v' [Ha [Hv' [Hmax _]]]]].
  exists k'. split; [exact Ha|].
  assert (Hrk : nth_error (onehot_row cats v) k = Some q1)
    by (unfold onehot_row; rewrite nth_error_map, Hk; cbn; rewrite Qc_eqb_refl; reflexivity).
  specialize (Hmax k q1 Hrk).
  unfold onehot_row in Hv'. rewrite nth_error_map in Hv'.
  destruct (nth_error cats k') as [c|] eqn:Ec; [|discriminate].
  cbn in Hv'. injection Hv' as Hv'.
  destruct (Qc_eqb c v) eqn:E.
  - apply Qc_eqb_eq in E. subst c.
    assert (k' = k).
    { apply (proj1 (NoDup_nth_error cats) Hnd).
      - apply nth_error_Some. rewrite Ec. discriminate.
      - rewrite Ec, Hk. reflexivity. }
    subst k'. auto.
  - subst v'. exfalso. revert Hmax. vm_compute. intros H. apply H. reflexivity.
Qed.

(** Decoding an encoded label: argmax of its row is its category's column. *)
Theorem onehot_argmax_roundtrip (y : list Qc) (enc : OneHotEncoder) (Y : Matrix) :
  ohe_fit_transform y = Ok (enc, Y) ->
  Forall2 (fun v row => exists k, np_argmax row = Ok k /\ column_of enc v = Some k /\
                                  nth_error (categories enc) k = Some v) y Y.
Proof.
  unfold ohe_fit_transform. destruct y as [|a y0]; [discriminate|].
  intros H. injection H as <- <-.
  apply (Forall2_map_self _ (onehot_row (np_unique (a :: y0))) (a :: y0)). intros v Hv.
  unfold column_of. cbn [categories].
  change (insert_unique a (np_unique y0)) with (np_unique (a :: y0)).
  apply onehot_row_argmax.
  - apply strongly_sorted_nodup, np_unique_sorted.
  - apply In_np_unique. exact Hv.
Qed.

Lemma onehot_argmax_roundtrip_witness :
  exists enc Y, ohe_fit_transform [qz 3; qz 1; qz 3] = Ok (enc, Y) /\
    Forall2 (fun v row => exists k, np_argmax row = Ok k /\ column_of enc v = Some k /\
                                    nth_error (categories enc) k = Some v) [qz 3; qz 1; qz 3] Y.
Proof.
  do 2 eexists. split; [reflexivity|]. apply onehot_argmax_roundtrip. reflexivity.
Defined.

Lemma all_some_iff (o : list (option Qc)) (r : list Qc) : all_some o = Some r <-> o = map Some r.
Proof.
  revert r. induction o as [|[x|] o IH]; intros r; cbn.
  - destruct r; cbn; split; intros H; first [reflexivity | discriminate H].
  - destruct (all_some o) as [r'|] eqn:E.
    + split.
      * intros H. injection H as <-. cbn. f_equal. apply IH. reflexivity.
      * destruct r as [|z r]; cbn; [intros H; discriminate H|]. intros H. injection H as -> Ho.
        apply IH in Ho. injection Ho as ->. reflexivity.
    + split; [intros H; discriminate H|]. destruct r as [|z r]; cbn; [intros H; discriminate H|].
      intros H. injection H as -> Ho. apply IH in Ho. discriminate Ho.
  - split; [intros H; discriminate H|]. destruct r; cbn; intros H; discriminate H.
Qed.

(** dropna keeps the column labels, and keeps exactly the rows without a NaN,
    with their index label and values unchanged, in their order. *)
Theorem dropna_rows (raw : RawFrame) :
  df_columns (dropna raw) = raw_columns raw /\
  map (fun ir => (fst ir, map Some (snd ir))) (df_rows (dropna raw)) =
    filter (fun io => match all_some (snd io) with Some _ => true | None => false end) (raw_rows raw).
Proof.
  split; [reflexivity|]. unfold dropna. cbn [df_rows].
  induction (raw_rows raw) as [|[i o] rows IH]; [reflexivity|]. cbn [flat_map filter snd fst].
  destruct (all_some o) as [r|] eqn:E; [|exact IH].
  cbn. rewrite IH. apply all_some_iff in E. subst o. reflexivity.
Qed.

Lemma index_of_some (s : string) (l : list string) (j : nat) :
  index_of s l = Some j -> nth_error l j = Some s.
Proof.
  revert j. induction l as [|c l IH]; intros j H; cbn in H; [discriminate|].
  destruct (String.eqb c s) eqn:E.
  - injection H as <-. apply String.eqb_eq in E. subst. reflexivity.
  - destruct (index_of s l) as [i|]; [|discriminate]. injection H as <-. apply IH. reflexivity.
Qed.

Lemma index_of_none (s : string) (l : list string) : index_of s l = None -> ~ In s l.
Proof.
  induction l as [|c l IH]; cbn; [tauto|].
  destruct (String.eqb c s) eqn:E; [discriminate|].
  apply String.eqb_neq in E. destruct (index_of s l); [discriminate|].
  intros _ [H|H]; [exact (E H) | exact (IH eq_refl H)].
Qed.

Lemma index_of_in (s : string) (l : list string) : In s l -> exists j, index_of s l = Some j.
Proof.
  intros H. destruct (index_of s l) as [j|] eqn:E; [exists j; reflexivity|].
  exfalso. exact (index_of_none s l E H).
Qed.

Lemma column_positions_err (cols names : list string) (e : Exn) :
  column_positions cols names = Err e -> exists nm, e = KeyError nm /\ In nm names /\ ~ In nm cols.
Proof.
  induction names as [|nm names IH]; cbn; [discriminate|].
  destruct (index_of nm cols) as [j|] eqn:E.
  - destruct (column_positions cols names) as [js|e']; [discriminate|].
    intros H. injection H as <-. destruct (IH eq_refl) as [nm' [-> [H1 H2]]].
    exists nm'. split; [reflexivity|]. split; [right; exact H1 | exact H2].
  - intros H. injection H as <-. exists nm. split; [reflexivity|].
    split; [left; reflexivity | exact (index_of_none nm cols E)].
Qed.

Lemma column_positions_ok (cols names : list string) :
  (forall nm, In nm names -> In nm cols) ->
  exists js, column_positions cols names = Ok js /\
    Forall2 (fun nm j => nth_error cols j = Some nm) names js.
Proof.
  induction names as [|nm names IH]; intros H; cbn.
  - exists []. split; [reflexivity | constructor].
  - destruct (index_of_in nm cols (H nm (or_introl eq_refl))) as [j Ej]. rewrite Ej.
    destruct IH as [js [E Hjs]]; [intros x Hx; apply H; right; exact Hx|]. rewrite E.
    exists (j :: js). split; [reflexivity|]. constructor; [apply index_of_some; exact Ej | exact Hjs].
Qed.

Lemma column_positions_ok_in (cols names : list string) (js : list nat) :
  column_positions cols names = Ok js -> forall nm, In nm names -> In nm cols.
Proof.
  revert js. induction names as [|nm names IH]; intros js H x Hx; cbn in H; [destruct Hx|].
  destruct (index_of nm cols) as [j|] eqn:E; [|discriminate].
  destruct (column_positions cols names) as [js'|e] eqn:E'; [|discriminate].
  destruct Hx as [<-|Hx].
  - apply index_of_some in E. exact (nth_error_In _ _ E).
  - exact (IH js' eq_refl x Hx).
Qed.

Lemma Forall2_nth_error_l {A B} (P : A -> B -> Prop) (l1 : list A) (l2 : list B) (p : nat) (a : A) :
  Forall2 P l1 l2 -> nth_error l1 p = Some a -> exists b, nth_error l2 p = Some b /\ P a b.
Proof.
  intros H. revert p. induction H as [|x y l1 l2 Hxy H IH]; intros p Hp; [destruct p; discriminate|].
  destruct p as [|p]; cbn in Hp |- *.
  - injection Hp as <-. exists y. split; [reflexivity | exact Hxy].
  - apply IH. exact Hp.
Qed.

(** df.loc[:, names] raises KeyError when some requested label is missing
    from the frame, and every error it raises is a KeyError naming such a
    label; when all are present the result
    has exactly the requested columns, the same rows in the same order, and
    under each requested label the values of the frame's column of that
    label. *)
Theorem loc_cols_spec (df : DataFrame) (names : list string) :
  ((exists nm, In nm names /\ ~ In nm (df_columns df)) ->
     exists nm, loc_cols df names = Err (KeyError nm) /\ In nm names /\ ~ In nm (df_columns df)) /\
  (forall e, loc_cols df names = Err e ->
     exists nm, e = KeyError nm /\ In nm names /\ ~ In nm (df_columns df)) /\
  ((forall nm, In nm names -> In nm (df_columns df)) ->
     exists df', loc_cols df names = Ok df' /\ df_columns df' = names /\
       map fst (df_rows df') = map fst (df_rows df) /\
       Forall (fun ir => length (snd ir) = length names) (df_rows df') /\
       forall p nm, nth_error names p = Some nm ->
         exists j, nth_error (df_columns df) j = Some nm /\
           map (fun ir => nth p (snd ir) q0) (df_rows df') = map (fun ir => nth j (snd ir) q0) (df_rows df)).
Proof.
  unfold loc_cols. split; [|split].
  - intros [nm0 [Hin Hout]]. destruct (column_positions (df_columns df) names) as [js|e] eqn:E.
    + exfalso. exact (Hout (column_positions_ok_in _ _ _ E nm0 Hin)).
    + destruct (column_positions_err _ _ _ E) as [nm [-> [H1 H2]]]. exists nm. auto.
  - intros e. destruct (column_positions (df_columns df) names) as [js|e'] eqn:E; [discriminate|].
    intros H. injection H as <-. exact (column_positions_err _ _ _ E).
  - intros Hin. destruct (column_positions_ok _ _ Hin) as [js [E Hjs]]. rewrite E.
    eexists. split; [reflexivity|]. cbn [df_columns df_rows].
    split; [reflexivity|]. split; [rewrite map_map; reflexivity|]. split.
    + apply Forall_forall. intros ir Hir. apply in_map_iff in Hir. destruct Hir as [ir0 [<- _]].
      cbn [snd]. rewrite length_map. symmetry. exact (Forall2_length Hjs).
    + intros p nm Hp. destruct (Forall2_nth_error_l _ _ _ _ _ Hjs Hp) as [j [Hj Hc]].
      exists j. split; [exact Hc|]. rewrite map_map. apply map_ext. intros ir. cbn [snd].
      apply nth_error_nth. rewrite nth_error_map, Hj. reflexivity.
Qed.

Lemma loc_cols_spec_witness :
  (forall nm, In nm Cardio.CTG_columns -> In nm (df_columns (dropna Toy.ctg_raw))) /\
  exists df', loc_cols (dropna Toy.ctg_raw) Cardio.CTG_columns = Ok df' /\ df_columns df' = Cardio.CTG_columns.
Proof.
  assert (H : forall nm, In nm Cardio.CTG_columns -> In nm (df_columns (dropna Toy.ctg_raw))) by (intros nm Hn; exact Hn).
  split; [exact H|].
  destruct (proj2 (proj2 (loc_cols_spec (dropna Toy.ctg_raw) Cardio.CTG_columns)) H) as [df' [E [Hc _]]].
  exists df'. split; [exact E | exact Hc].
Defined.

(** Splitting a frame into df.iloc[:, :-1] and df.iloc[:, -1] loses nothing:
    on a frame with at least one column whose rows all have one value per
    column, the last column exists, it keeps the index labels, and appending
    it back to the remaining columns gives the frame again. *)
Theorem iloc_split_roundtrip (df : DataFrame) (Hc : df_columns df <> [])
  (Hr : Forall (fun ir => length (snd ir) = length (df_columns df)) (df_rows df)) :
  exists y, iloc_last df = Ok y /\ map fst y = map fst (df_rows df) /\
    df_columns (iloc_drop_last df) ++ [last (df_columns df) ""] = df_columns df /\
    map (fun p => (fst (fst p), snd (fst p) ++ [snd (snd p)]))
        (combine (df_rows (iloc_drop_last df)) y) = df_rows df.
Proof.
  unfold iloc_last, iloc_drop_last. destruct (df_columns df) as [|c cs] eqn:Ec; [congruence|].
  eexists. split; [reflexivity|]. cbn [df_columns df_rows].
  split; [rewrite map_map; reflexivity|].
  split; [symmetry; apply app_removelast_last; discriminate|].
  induction (df_rows df) as [|[i r] rows IH]; [reflexivity|].
  inversion Hr as [|? ? Hlen Hrows]; subst. cbn [map combine fst snd].
  rewrite (IH Hrows). f_equal. f_equal. symmetry. apply app_removelast_last.
  intros ->. cbn in Hlen. discriminate.
Qed.

Lemma iloc_split_roundtrip_witness :
  df_columns Toy.diabetes_frame <> [] /\
  Forall (fun ir => length (snd ir) = length (df_columns Toy.diabetes_frame)) (df_rows Toy.diabetes_frame) /\
  exists y, iloc_last Toy.diabetes_frame = Ok y.
Proof.
  assert (Hc : df_columns Toy.diabetes_frame <> []) by discriminate.
  assert (Hr : Forall (fun ir => length (snd ir) = length (df_columns Toy.diabetes_frame)) (df_rows Toy.diabetes_frame))
    by (repeat constructor).
  split; [exact Hc|]. split; [exact Hr|].
  destruct (iloc_split_roundtrip Toy.diabetes_frame Hc Hr) as [y [E _]]. exists y. exact E.
Defined.

(** train_test_split(df, test_size=.2) under a generator drawing
    permutations: it raises, with nothing drawn and nothing logged, on a
    frame of at most one row; on n >= 2 rows it succeeds, its test set has
    n_test = ceil(n/5) rows (n <= 5 n_test < n + 5), fewer than n, and its
    training set the other n - n_test rows. *)
Theorem split_needs_two_rows (L : Lib) (Hperm : perm_ok L) (df : DataFrame) (ts : Q) (s : St)
    (Hts : (ts == 2 # 10)%Q) :
  (length (df_rows df) <= 1 ->
     train_test_split L df ts s = (Err (ValueError "the resulting train set will be empty"), s)) /\
  (2 <= length (df_rows df) ->
     n_test_of ts (length (df_rows df)) < length (df_rows df) /\
     length (df_rows df) <= 5 * n_test_of ts (length (df_rows df)) < length (df_rows df) + 5 /\
     exists tr te s', train_test_split L df ts s = (Ok (tr, te), s') /\
       length (df_rows te) = n_test_of ts (length (df_rows df)) /\
       length (df_rows tr) = length (df_rows df) - n_test_of ts (length (df_rows df))).
Proof.
  destruct (n_test_fifth ts (length (df_rows df)) Hts) as [B1 B2].
  unfold train_test_split. split; intros Hn.
  - replace (Nat.eqb (length (df_rows df) - n_test_of ts (length (df_rows df))) 0) with true
      by (symmetry; apply PeanoNat.Nat.eqb_eq; lia).
    reflexivity.
  - split; [lia|]. split; [lia|].
    replace (Nat.eqb (length (df_rows df) - n_test_of ts (length (df_rows df))) 0) with false
      by (symmetry; apply PeanoNat.Nat.eqb_neq; lia).
    pose proof (Hperm (length (df_rows df)) (st_rng s)) as Hp.
    destruct (permutation L (length (df_rows df)) (st_rng s)) as [perm rng'] eqn:Ep. cbn [fst] in Hp.
    assert (Hlen : length perm = length (df_rows df)) by (rewrite (Permutation_length Hp); apply length_seq).
    do 3 eexists. split; [reflexivity|]. cbn [take_rows df_rows].
    rewrite !length_map, !length_firstn, length_skipn. lia.
Qed.

Lemma split_needs_two_rows_witness :
  (1 - Diabetes.DIVIDE_RATIO == 2 # 10)%Q /\ 2 <= length (df_rows Toy.diabetes_frame) /\
  exists tr te s', train_test_split Toy.lib Toy.diabetes_frame (1 - Diabetes.DIVIDE_RATIO) (mkSt [] 0) = (Ok (tr, te), s').
Proof.
  assert (Hts : (1 - Diabetes.DIVIDE_RATIO == 2 # 10)%Q) by reflexivity.
  assert (Hn : 2 <= length (df_rows Toy.diabetes_frame)) by (cbn; lia).
  split; [exact Hts|]. split; [exact Hn|].
  destruct (proj2 (proj2 (proj2 (split_needs_two_rows Toy.lib toy_perm_ok Toy.diabetes_frame _ (mkSt [] 0) Hts) Hn)))
    as [tr [te [s' [E _]]]].
  exists tr, te, s'. exact E.
Defined.

Lemma map_nth_seq_self {A} (l : list A) (d : A) : map (fun i => nth i l d) (seq 0 (length l)) = l.
Proof.
  induction l as [|a l IH]; [reflexivity|]. cbn [length seq map nth].
  rewrite <- seq_shift, map_map. cbn [nth]. rewrite IH. reflexivity.
Qed.

(** A successful train_test_split under a generator drawing permutations:
    the training and test rows together are the frame's rows, each exactly
    once; both parts keep the columns; the test part has n_test rows; the
    generator has advanced by exactly one draw of size n. *)
Theorem split_permutes_rows (L : Lib) (Hperm : perm_ok L) (df : DataFrame) (ts : Q) (s : St)
    (tr te : DataFrame) (s' : St) :
  train_test_split L df ts s = (Ok (tr, te), s') ->
  Permutation (df_rows tr ++ df_rows te) (df_rows df) /\
  df_columns tr = df_columns df /\ df_columns te = df_columns df /\
  length (df_rows te) = n_test_of ts (length (df_rows df)) /\
  st_rng s' = snd (permutation L (length (df_rows df)) (st_rng s)).
Proof.
  unfold train_test_split. set (n := length (df_rows df)). set (k := n_test_of ts n).
  destruct (Nat.eqb (n - k) 0) eqn:E; [discriminate|]. apply PeanoNat.Nat.eqb_neq in E.
  pose proof (Hperm n (st_rng s)) as Hp.
  destruct (permutation L n (st_rng s)) as [perm rng'] eqn:Ep. cbn [fst] in Hp.
  intros H. injection H as <- <- <-. cbn [df_rows df_columns take_rows st_rng snd].
  assert (Hlen : length perm = n) by (rewrite (Permutation_length Hp); apply length_seq).
  split; [|split; [reflexivity|split; [reflexivity|split; [|reflexivity]]]].
  - rewrite <- map_app.
    transitivity (map (fun i => nth i (df_rows df) (0, [])) (seq 0 n));
      [|unfold n; rewrite map_nth_seq_self; reflexivity].
    apply Permutation_map.
    rewrite (firstn_all2 (n := n - k)) by (rewrite length_skipn; lia).
    eapply Permutation_trans; [apply Permutation_app_comm|]. rewrite firstn_skipn. exact Hp.
  - rewrite length_map, length_firstn. lia.
Qed.

Lemma split_permutes_rows_witness :
  exists tr te s', train_test_split Toy.lib Toy.diabetes_frame (2 # 10) (mkSt [] 0) = (Ok (tr, te), s') /\
    Permutation (df_rows tr ++ df_rows te) (df_rows Toy.diabetes_frame).
Proof.
  do 3 eexists. assert (E : train_test_split Toy.lib Toy.diabetes_frame (2 # 10) (mkSt [] 0) = (Ok (_, _), _))
    by reflexivity.
  split; [exact E|]. exact (proj1 (split_permutes_rows Toy.lib toy_perm_ok _ _ _ _ _ _ E)).
Defined.


Lemma dict_get_missing (h : History) (k : string) : ~ In k (map fst h) -> Cardio.dict_get h k = Err (KeyError k).
Proof.
  induction h as [|[k' v] h IH]; intros Hn; [reflexivity|]. cbn.
  destruct (String.eqb k' k) eqn:E.
  - apply String.eqb_eq in E. exfalso. apply Hn. left. exact E.
  - apply IH. intros H. apply Hn. right. exact H.
Qed.

Lemma dict_get_present (h : History) (k : string) : In k (map fst h) -> exists v, Cardio.dict_get h k = Ok v.
Proof.
  induction h as [|[k' v] h IH]; intros Hn; [destruct Hn|]. cbn.
  destruct (String.eqb k' k) eqn:E; [eexists; reflexivity|].
  apply IH. destruct Hn as [Hk|Hk]; [|exact Hk]. cbn in Hk. apply String.eqb_neq in E. contradiction.
Qed.

(** plot_metric_graph(hist, metric, title): a history without [metric], or
    without ["val_" ++ metric], raises KeyError on that key before any figure
    is saved or shown; with both keys it saves [title ++ ".jpg"] and then
    shows the figure, unless writing the file fails. *)
Theorem plot_metric_graph_spec (L : Lib) (hist : History) (metric title : string) (s : St) :
  (~ In metric (map fst hist) ->
     Cardio.plot_metric_graph L hist metric title s = (Err (KeyError metric), s)) /\
  (In metric (map fst hist) -> ~ In ("val_" ++ metric)%string (map fst hist) ->
     Cardio.plot_metric_graph L hist metric title s = (Err (KeyError ("val_" ++ metric)), s)) /\
  (In metric (map fst hist) -> In ("val_" ++ metric)%string (map fst hist) ->
     Cardio.plot_metric_graph L hist metric title s =
       match write_file L (title ++ ".jpg") with
       | Ok _ => (Ok tt, mkSt (st_trace s ++ [EvSaveFig (title ++ ".jpg"); EvShow]) (st_rng s))
       | Err e => (Err e, s)
       end).
Proof.
  unfold Cardio.plot_metric_graph, plt_savefig, emit, lift, bind.
  split; [|split].
  - intros Hm. rewrite (dict_get_missing _ _ Hm). reflexivity.
  - intros Hm Hv. destruct (dict_get_present _ _ Hm) as [v Ev]. rewrite Ev.
    rewrite (dict_get_missing _ _ Hv). reflexivity.
  - intros Hm Hv. destruct (dict_get_present _ _ Hm) as [v Ev]. rewrite Ev.
    destruct (dict_get_present _ _ Hv) as [v' Ev']. rewrite Ev'.
    destruct (write_file L (title ++ ".jpg")) as [[]|e]; [|reflexivity].
    cbn. rewrite <- app_assoc. reflexivity.
Qed.

Lemma plot_metric_graph_spec_witness :
  In "loss" (map fst Toy.history) /\ In ("val_" ++ "loss")%string (map fst Toy.history) /\
  Cardio.plot_metric_graph Toy.lib Toy.history "loss" "Epoch-Loss Graph" (mkSt [] 0) =
    (Ok tt, mkSt [EvSaveFig "Epoch-Loss Graph.jpg"; EvShow] 0).
Proof.
  assert (H1 : In "loss" (map fst Toy.history)) by (cbn; auto).
  assert (H2 : In ("val_" ++ "loss")%string (map fst Toy.history)) by (cbn; auto).
  split; [exact H1|]. split; [exact H2|].
  rewrite (proj2 (proj2 (plot_metric_graph_spec Toy.lib Toy.history "loss" "Epoch-Loss Graph" (mkSt [] 0))) H1 H2).
  reflexivity.
Defined.

(** The model create_cardiotocographic_model builds evaluates to exactly two
    values, the loss and the categorical accuracy of its predictions, so the
    unpacking [loss, category_accuracy = model.evaluate(...)] never raises. *)
Theorem cardio_evaluate_two_values (L : Lib) (d k : nat) (name : option string) (s s' : St)
    (m : Model) (w : Weights) (X Y : Matrix) (res : list Qc) :
  Cardio.create_cardiotocographic_model d k name s = (Ok m, s') ->
  keras_evaluate L m w X Y = Ok res ->
  res = [loss_value L m w X Y; metric_value "categorical_accuracy" (map (forward L m w) X) Y].
Proof.
  intros H. sym H. unfold keras_evaluate. cbn [m_compiled metrics].
  repeat match goal with |- context [if ?b then _ else _] => destruct b end; try discriminate.
  intros E. injection E as <-. reflexivity.
Qed.

(** A completed train_evaluate_save_model builds and compiles the
    "cardiotocographic-predictor" model, fits it on the training data with
    the given epochs, evaluates it on the test data, predicts the given rows,
    saves it to [name ++ ".h5"], in this order and nothing else, leaves the
    state of numpy's global generator as it found it, and returns the
    history of the fit, the two values of evaluate and the predictions. *)
Theorem train_evaluate_save_model_success (L : Lib) (Xtr ytr Xte yte Xp : Matrix) (k : nat)
    (name : string) (ep : nat) (s s' : St) (hist : History) (loss acc : Qc) (P : Matrix) :
  Cardio.train_evaluate_save_model L Xtr ytr Xte yte Xp k name ep s = (Ok (hist, loss, acc, P), s') ->
  let layers := [mkDense 64 "relu" (Some (Cardio.shape1 Xtr)) "Hidden1"; mkDense 64 "relu" None "Hidden2";
                 mkDense k "softmax" None "output"] in
  let c := mkCompiled "categorical_crossentropy" "rmsprop" ["categorical_accuracy"] in
  let m := mkModel (Some "cardiotocographic-predictor") layers (Some c) in
  exists w, inputs_fit m Xtr && targets_fit m ytr = true /\
    keras_train L m Xtr ytr (mkFitOpts ep 32 (2 # 10)) = Ok (w, hist) /\
    keras_evaluate L m w Xte yte = Ok [loss; acc] /\ keras_predict L m w Xp = Ok P /\
    write_file L (name ++ ".h5") = Ok tt /\ st_rng s' = st_rng s /\
    st_trace s' = st_trace s ++
      [EvSequential (Some "cardiotocographic-predictor");
       EvAdd (mkDense 64 "relu" (Some (Cardio.shape1 Xtr)) "Hidden1"); EvAdd (mkDense 64 "relu" None "Hidden2");
       EvAdd (mkDense k "softmax" None "output");
       EvSummary (mkModel (Some "cardiotocographic-predictor") layers None); EvCompile c;
       EvFit m Xtr ytr; EvEvaluate m Xte yte; EvPredict m Xp; EvSaveModel (name ++ ".h5")].
Proof.
  intros H. sym H; try discriminate. cbv zeta. subst.
  match goal with u : unit |- _ => destruct u end.
  eexists. repeat (split; [first [eassumption | reflexivity]|]).
  cbn [st_trace]. rewrite <- !app_assoc. reflexivity.
Qed.

Lemma train_evaluate_save_model_success_witness :
  exists hist loss acc P s',
    Cardio.train_evaluate_save_model Toy.lib [[q0]] [[q1; q0; q0]] [[q0]] [[q1; q0; q0]] [[q1]] 3 "m" 5 (mkSt [] 0) =
      (Ok (hist, loss, acc, P), s') /\
    st_trace s' = [EvSequential (Some "cardiotocographic-predictor");
       EvAdd (mkDense 64 "relu" (Some 1) "Hidden1"); EvAdd (mkDense 64 "relu" None "Hidden2");
       EvAdd (mkDense 3 "softmax" None "output");
       EvSummary (mkModel (Some "cardiotocographic-predictor")
         [mkDense 64 "relu" (Some 1) "Hidden1"; mkDense 64 "relu" None "Hidden2"; mkDense 3 "softmax" None "output"] None);
       EvCompile (mkCompiled "categorical_crossentropy" "rmsprop" ["categorical_accuracy"]);
       EvFit (mkModel (Some "cardiotocographic-predictor")
         [mkDense 64 "relu" (Some 1) "Hidden1"; mkDense 64 "relu" None "Hidden2"; mkDense 3 "softmax" None "output"]
         (Some (mkCompiled "categorical_crossentropy" "rmsprop" ["categorical_accuracy"]))) [[q0]] [[q1; q0; q0]];
       EvEvaluate (mkModel (Some "cardiotocographic-predictor")
         [mkDense 64 "relu" (Some 1) "Hidden1"; mkDense 64 "relu" None "Hidden2"; mkDense 3 "softmax" None "output"]
         (Some (mkCompiled "categorical_crossentropy" "rmsprop" ["categorical_accuracy"]))) [[q0]] [[q1; q0; q0]];
       EvPredict (mkModel (Some "cardiotocographic-predictor")
         [mkDense 64 "relu" (Some 1) "Hidden1"; mkDense 64 "relu" None "Hidden2"; mkDense 3 "softmax" None "output"]
         (Some (mkCompiled "categorical_crossentropy" "rmsprop" ["categorical_accuracy"]))) [[q1]];
       EvSaveModel "m.h5"].
Proof.
  do 5 eexists.
  assert (E : Cardio.train_evaluate_save_model Toy.lib [[q0]] [[q1; q0; q0]] [[q0]] [[q1; q0; q0]] [[q1]] 3 "m" 5 (mkSt [] 0) =
              (Ok (_, _, _, _), _)) by (vm_compute; reflexivity).
  split; [exact E|].
  destruct (train_evaluate_save_model_success _ _ _ _ _ _ _ _ _ _ _ _ _ _ _ E) as [w [_ [_ [_ [_ [_ [_ Ht]]]]]]].
  exact Ht.
Defined.

Lemma for_each_prints_exact {A} (xs : list A) (body : A -> M unit) (g : A -> Result (list PyVal)) :
  (forall x s, body x s = match g x with
                          | Ok a => (Ok tt, mkSt (st_trace s ++ [EvPrint a]) (st_rng s))
                          | Err e => (Err e, s)
                          end) ->
  forall s s', for_each xs body s = (Ok tt, s') ->
  exists args, Forall2 (fun x a => g x = Ok a) xs args /\
               s' = mkSt (st_trace s ++ map EvPrint args) (st_rng s).
Proof.
  intros Hb. induction xs as [|x xs IH]; intros s s' H; cbn in H.
  - injection H as <-. exists []. split; [constructor|]. rewrite app_nil_r. destruct s; reflexivity.
  - unfold bind in H. rewrite Hb in H. destruct (g x) as [a|e] eqn:Eg; [|discriminate].
    destruct (IH _ _ H) as [args [Hf ->]]. exists (a :: args). split; [constructor; assumption|].
    cbn [st_trace st_rng map]. rewrite <- app_assoc. reflexivity.
Qed.

Lemma Forall2_eq_map {A B} (f : A -> B) (xs : list A) (ys : list B) :
  Forall2 (fun x y => Ok (f x) = Ok y) xs ys -> ys = map f xs.
Proof.
  induction 1 as [|x y xs ys Hxy _ IH]; [reflexivity|]. cbn. injection Hxy as <-. rewrite IH. reflexivity.
Qed.

Lemma suffix_cons {A} (x : A) (t suf : list A) :
  (exists pre, t = pre ++ suf) -> exists pre, x :: t = pre ++ suf.
Proof. intros [pre ->]. exists (x :: pre). reflexivity. Qed.

Lemma keras_predict_shape (L : Lib) (m : Model) (w : Weights) (X P : Matrix) :
  keras_predict L m w X = Ok P -> length P = length X /\ Forall (fun p => length p = out_units m) P.
Proof.
  unfold keras_predict. destruct (inputs_fit m X); [|discriminate]. intros H. injection H as <-.
  rewrite length_map. split; [reflexivity|]. apply Forall_forall. intros p Hp.
  apply in_map_iff in Hp. destruct Hp as [x [<- _]]. unfold forward. rewrite length_map, length_seq. reflexivity.
Qed.

Ltac suffix := repeat (first [exists []; reflexivity | apply suffix_cons]).

(** A completed run of the diabetes script ends by reading predicted.csv,
    predicting on its rows, and printing one message per row, in order:
    "Person have got diabetes..." when the row's single output exceeds 1/2,
    "Person is healthy..." otherwise. *)
Theorem diabetes_prediction_messages (L : Lib) (env : Env) (rng : nat) :
  fst (Diabetes.run L env rng) = Ok tt ->
  exists m w Xp P,
    read_csv L (path_join (cwd env) "02-keras-2L-diabetes-predict/predicted.csv") = Ok Xp /\
    keras_predict L m w (to_numpy Xp) = Ok P /\ length P = length (df_rows Xp) /\
    Forall (fun p => length p = 1) P /\
    exists pre, st_trace (snd (Diabetes.run L env rng)) =
      pre ++ [EvReadCsv (path_join (cwd env) "02-keras-2L-diabetes-predict/predicted.csv");
              EvPredict m (to_numpy Xp)] ++
      map (fun p => EvPrint [PStr (if Qc_ltb half (hd q0 p) then "Person have got diabetes..."
                                   else "Person is healthy...")]) P.
Proof.
  destruct (Diabetes.run L env rng) as [r s] eqn:H. cbn [fst snd].
  sym H; intros Hok; try discriminate. subst r.
  apply (for_each_prints_exact _ _ (fun p => Ok [PStr (if Qc_ltb half (hd q0 p) then "Person have got diabetes..."
                                                      else "Person is healthy...")])) in H;
    [|intros; reflexivity].
  destruct H as [args [Hf ->]].
  apply (Forall2_eq_map (fun p => [PStr (if Qc_ltb half (hd q0 p) then "Person have got diabetes..."
                                         else "Person is healthy...")])) in Hf. subst args.
  match goal with
  | Hc : read_csv _ (path_join _ "02-keras-2L-diabetes-predict/predicted.csv") = Ok ?Xp,
    Hp : keras_predict _ ?m ?w _ = Ok ?P |- _ =>
      exists m, w, Xp, P; split; [first [exact Hc | reflexivity]|]; split; [first [exact Hp | reflexivity]|];
      destruct (keras_predict_shape _ _ _ _ _ Hp) as [Hl Hu]
  end.
  split; [rewrite Hl; unfold to_numpy; apply length_map|]. split; [exact Hu|].
  cbn [st_trace]. rewrite map_map. cbn [app]. suffix.
Qed.

Lemma diabetes_prediction_messages_witness :
  fst (Diabetes.run Toy.lib Toy.env 0) = Ok tt /\
  exists m w Xp P, keras_predict Toy.lib m w (to_numpy Xp) = Ok P /\ length P = 2.
Proof.
  assert (Hok : fst (Diabetes.run Toy.lib Toy.env 0) = Ok tt) by (vm_compute; reflexivity).
  split; [exact Hok|].
  destruct (diabetes_prediction_messages Toy.lib Toy.env 0 Hok) as [m [w [Xp [P [Hc [Hp [Hl _]]]]]]].
  exists m, w, Xp, P. split; [exact Hp|]. rewrite Hl.
  cbn in Hc. injection Hc as <-. reflexivity.
Defined.

Lemma Forall2_py_index_map (l : list string) (idx : list nat) (args : list (list PyVal)) :
  Forall2 (fun i a => match py_index l i with Ok x => Ok [PStr x] | Err e => Err e end = Ok a) idx args ->
  args = map (fun i => [PStr (nth i l "")]) idx /\ Forall (fun i => i < length l) idx.
Proof.
  induction 1 as [|i a idx args Hia _ [IH1 IH2]]; [split; [reflexivity | constructor]|].
  unfold py_index in Hia. destruct (nth_error l i) as [x|] eqn:E; [|discriminate].
  injection Hia as <-. split.
  - cbn. rewrite IH1. erewrite nth_error_nth by exact E. reflexivity.
  - constructor; [|exact IH2]. apply nth_error_Some. rewrite E. discriminate.
Qed.

Lemma np_argmax_rows_length (P : Matrix) (idx : list nat) : np_argmax_rows P = Ok idx -> length idx = length P.
Proof.
  revert idx. induction P as [|r P IH]; intros idx H; cbn in H.
  - injection H as <-. reflexivity.
  - destruct (np_argmax r), (np_argmax_rows P) as [is|e2]; try discriminate.
    injection H as <-. cbn. f_equal. apply IH. reflexivity.
Qed.

(** A completed run of the cardiotocographic script ends, after predicting,
    by saving the model, saving and showing the loss graph and then the
    accuracy graph, printing the banner, the loss and categorical accuracy
    that evaluate returned and the banner again, then the label of the
    argmax of each prediction row, in order, and finally pickling the
    scaler. *)
Theorem cardio_report_tail (L : Lib) (env : Env) (rng : nat) :
  fst (Cardio.run L env rng) = Ok tt ->
  exists m w Xte Yte Xp P idx loss acc sc,
    keras_evaluate L m w Xte Yte = Ok [loss; acc] /\
    keras_predict L m w Xp = Ok P /\ np_argmax_rows P = Ok idx /\ length idx = length P /\
    exists pre, st_trace (snd (Cardio.run L env rng)) =
      pre ++ [EvPredict m Xp; EvSaveModel "cardiotocographic-predictor.h5";
              EvSaveFig "Epoch-Loss Graph.jpg"; EvShow;
              EvSaveFig "Epoch-Categorical Accuracy Graph.jpg"; EvShow;
              EvPrint [PStr Cardio.rule]; EvPrint [PStr "Model Evaluation Metrics:"];
              EvPrint [PStr "loss: "; PNum loss; PStr (newline ++ "categorical_accuracy: "); PNum acc];
              EvPrint [PStr Cardio.rule]] ++
      map (fun i => EvPrint [PStr (nth i Cardio.labels "")]) idx ++
      [EvPickle "cardiotocographic.pickle" sc].
Proof.
  destruct (Cardio.run L env rng) as [r s] eqn:H. cbn [fst snd].
  sym H; intros Hok; try discriminate. subst.
  repeat match goal with u : unit |- _ => destruct u end.
  match goal with Hp1 : for_each _ _ _ = (Ok tt, _) |- _ =>
    apply (for_each_prints_exact _ _
             (fun i => match py_index Cardio.labels i with Ok x => Ok [PStr x] | Err e => Err e end)) in Hp1;
    [|intros x s1; cbn; destruct (py_index Cardio.labels x); reflexivity];
    destruct Hp1 as [args [Hf ->]]
  end.
  apply Forall2_py_index_map in Hf. destruct Hf as [-> _].
  match goal with
  | He : keras_evaluate _ ?m ?w ?Xte ?Yte = Ok [?loss; ?acc],
    Hp : keras_predict _ _ _ ?Xp = Ok ?P,
    Ha : np_argmax_rows ?P = Ok ?idx,
    Hs : mms_transform ?sc _ = _ |- _ =>
      exists m, w, Xte, Yte, Xp, P, idx, loss, acc, sc;
      split; [first [exact He | reflexivity]|]; split; [first [exact Hp | reflexivity]|];
      split; [first [exact Ha | reflexivity]|]; split; [exact (np_argmax_rows_length _ _ Ha)|]
  end.
  cbn [st_trace]. rewrite map_map, <- app_assoc. cbn [app]. suffix.
Qed.

Lemma cardio_report_tail_witness :
  fst (Cardio.run Toy.lib Toy.env 0) = Ok tt /\
  exists m w Xte Yte Xp P idx loss acc, keras_evaluate Toy.lib m w Xte Yte = Ok [loss; acc] /\
    keras_predict Toy.lib m w Xp = Ok P /\ np_argmax_rows P = Ok idx.
Proof.
  assert (Hok : fst (Cardio.run Toy.lib Toy.env 0) = Ok tt) by (vm_compute; reflexivity).
  split; [exact Hok|].
  destruct (cardio_report_tail Toy.lib Toy.env 0 Hok)
    as [m [w [Xte [Yte [Xp [P [idx [loss [acc [sc [He [Hp [Ha _]]]]]]]]]]]]].
  exists m, w, Xte, Yte, Xp, P, idx, loss, acc. auto.
Defined.


Lemma loc_cols_widths (df df' : DataFrame) (names : list string) :
  loc_cols df names = Ok df' -> Forall (fun ir => length (snd ir) = length names) (df_rows df').
Proof.
  unfold loc_cols. destruct (column_positions (df_columns df) names) as [js|e] eqn:E; [|discriminate].
  intros H. injection H as <-. apply Forall_forall. intros ir Hir. cbn [df_rows] in Hir.
  apply in_map_iff in Hir. destruct Hir as [ir0 [<- _]]. cbn [snd]. rewrite length_map.
  clear ir0. revert js E. induction names as [|nm names IH]; intros js E; cbn in E.
  - injection E as <-. reflexivity.
  - destruct (index_of nm (df_columns df)); [|discriminate].
    destruct (column_positions (df_columns df) names) as [js'|e]; [|discriminate].
    injection E as <-. cbn. f_equal. apply IH. reflexivity.
Qed.

Lemma length_removelast_S {A} (l : list A) : l <> [] -> S (length (removelast l)) = length l.
Proof.
  intros Hne. induction l as [|a l IH]; [congruence|].
  destruct l as [|b l]; [reflexivity|].
  change (removelast (a :: b :: l)) with (a :: removelast (b :: l)).
  cbn [length]. rewrite IH by discriminate. reflexivity.
Qed.

Lemma features_width (df : DataFrame) (pos : list nat) (k : nat) :
  Forall (fun ir => length (snd ir) = S k) (df_rows df) ->
  forall r, In r (to_numpy (iloc_drop_last (take_rows df pos))) -> length r = k \/ length r = 0.
Proof.
  intros Hw r Hr. unfold to_numpy, iloc_drop_last, take_rows in Hr. cbn [df_rows] in Hr.
  rewrite map_map, map_map in Hr. apply in_map_iff in Hr. destruct Hr as [i [<- _]]. cbn [snd].
  destruct (Compare_dec.lt_dec i (length (df_rows df))) as [Hi|Hi].
  - left. pose proof (proj1 (Forall_forall _ _) Hw (nth i (df_rows df) (0, [])) (nth_In _ _ Hi)) as Hl.
    cbv beta in Hl. match goal with |- length (removelast ?t) = _ =>
      assert (Hne : t <> []) by (intros E; rewrite E in Hl; discriminate);
      pose proof (length_removelast_S _ Hne); lia end.
  - right. rewrite nth_overflow by lia. reflexivity.
Qed.

Lemma mms_fit_width (X : Matrix) (sc : MinMaxScaler) (k : nat) :
  mms_fit X = Ok sc -> (forall r, In r X -> length r = k \/ length r = 0) -> length (data_min sc) = k.
Proof.
  destruct X as [|r0 rs]; [discriminate|]. cbn [mms_fit].
  destruct (Nat.eqb (length r0) 0) eqn:E0; [discriminate|].
  destruct (negb _); [discriminate|]. intros H Hw. injection H as <-. cbn [data_min].
  rewrite length_map, length_seq. destruct (Hw r0 (or_introl eq_refl)) as [E|E]; [exact E|].
  rewrite E in E0. discriminate.
Qed.

Lemma mms_transform_width (sc : MinMaxScaler) (X Xt : Matrix) :
  mms_transform sc X = Ok Xt -> X <> [] /\ forall r, In r X -> length r = length (data_min sc).
Proof.
  unfold mms_transform. destruct X as [|r0 rs]; [discriminate|].
  destruct (forallb _ _) eqn:E; [|discriminate]. intros _. split; [discriminate|].
  intros r Hr. apply PeanoNat.Nat.eqb_eq. exact (proj1 (forallb_forall _ _) E r Hr).
Qed.

Ltac width_contra :=
  match goal with
  | Hcsv : Ok ?a = Ok ?Xp,
    Hm : mms_transform ?sc (to_numpy ?a) = Ok _,
    Hf : mms_fit (to_numpy (iloc_drop_last (take_rows ?df ?pos))) = Ok ?sc,
    Hl : loc_cols _ Cardio.CTG_columns = Ok ?df,
    Hbad : _ \/ exists _, _ |- _ =>
      injection Hcsv as ->;
      let Hne := fresh "Hne" in let Hw := fresh "Hw" in let Hd := fresh "Hd" in
      destruct (mms_transform_width _ _ _ Hm) as [Hne Hw];
      pose proof (mms_fit_width _ _ 21 Hf (features_width df pos 21 (loc_cols_widths _ _ _ Hl))) as Hd;
      exfalso;
      let Hb := fresh "Hb" in let r := fresh "r" in let Hr := fresh "Hr" in let Hr21 := fresh "Hr21" in
      destruct Hbad as [Hb | [r [Hr Hr21]]];
      [ apply Hne; unfold to_numpy; rewrite Hb; reflexivity | apply Hr21; rewrite (Hw r Hr); exact Hd ]
  end.

Ltac width_err :=
  match goal with
  | Hm : mms_transform ?sc (to_numpy ?a) = Err _ |- _ =>
      unfold mms_transform in Hm; destruct (to_numpy a);
      [ injection Hm as <-; left; reflexivity
      | destruct (forallb _ _); [discriminate | injection Hm as <-; right; reflexivity] ]
  end.

(** A run of the cardiotocographic script that reaches reading predicted.csv
    fails with ValueError at scaler.transform when that file has no row, or
    has a row whose width is not the 21 feature columns the scaler was fitted
    on (for instance a file that still has the NSP column). *)
Theorem cardio_predicted_width (L : Lib) (env : Env) (rng : nat) (Xp : DataFrame) :
  In (EvReadCsv "predicted.csv") (st_trace (snd (Cardio.run L env rng))) ->
  read_csv L "predicted.csv" = Ok Xp ->
  (df_rows Xp = [] \/ exists r, In r (to_numpy Xp) /\ length r <> 21) ->
  fst (Cardio.run L env rng) =
    Err (ValueError "Found array with 0 sample(s) while a minimum of 1 is required by MinMaxScaler.") \/
  fst (Cardio.run L env rng) =
    Err (ValueError "X has a different number of features than MinMaxScaler is expecting.").
Proof.
  destruct (Cardio.run L env rng) as [r s] eqn:H. cbn [fst snd]. intros Hin Hcsv Hbad.
  sym H; first [ solve [in_trace Hin] | congruence | width_err | width_contra ].
Qed.

Lemma cardio_predicted_width_witness :
  In (EvReadCsv "predicted.csv") (st_trace (snd (Cardio.run (Toy.lib_predicted Toy.predicted_with_target) Toy.env 0))) /\
  (fst (Cardio.run (Toy.lib_predicted Toy.predicted_with_target) Toy.env 0) =
     Err (ValueError "Found array with 0 sample(s) while a minimum of 1 is required by MinMaxScaler.") \/
   fst (Cardio.run (Toy.lib_predicted Toy.predicted_with_target) Toy.env 0) =
     Err (ValueError "X has a different number of features than MinMaxScaler is expecting.")).
Proof.
  assert (Hin : In (EvReadCsv "predicted.csv") (st_trace (snd (Cardio.run (Toy.lib_predicted Toy.predicted_with_target) Toy.env 0)))).
  { vm_compute. repeat (first [left; reflexivity | right]). }
  split; [exact Hin|].
  apply (cardio_predicted_width _ _ _ Toy.predicted_with_target Hin eq_refl).
  right. exists (map (fun k => qz (Z.of_nat k)) (seq 0 21) ++ [q1]). split; [left; reflexivity | discriminate].
Defined.

Lemma cardio_evaluate_two_values_witness :
  exists m s' res,
    Cardio.create_cardiotocographic_model 1 3 None (mkSt [] 0) = (Ok m, s') /\
    keras_evaluate Toy.lib m [] [[q0]] [[q1; q0; q0]] = Ok res /\
    res = [loss_value Toy.lib m [] [[q0]] [[q1; q0; q0]];
           metric_value "categorical_accuracy" (map (forward Toy.lib m []) [[q0]]) [[q1; q0; q0]]].
Proof.
  eexists; eexists; eexists. split; [reflexivity|]. split; [vm_compute; reflexivity|].
  refine (cardio_evaluate_two_values Toy.lib 1 3 None (mkSt [] 0) _ _ [] [[q0]] [[q1; q0; q0]] _ eq_refl _).
  vm_compute. reflexivity.
Defined.
